(** * cortx-utils: package validator (py-utils/src/utils/validator/v_pkg.py)

    A shallow embedding of class [PkgV] and a verification of its behaviour:
    connection selection, command execution, and the rpm / pip3 presence and
    version checks.

    Python [str] values are sequences of Unicode code points, [bytes] values
    are sequences of octets.  The collaborators the module imports
    (NetworkV, SSHChannel, SimpleProcess, pwd/os) are not part of the file;
    they are read through a [World] record of oracles, and every interaction
    with them is recorded in an event trace. *)

From Stdlib Require Import List ZArith NArith Ascii String Bool Lia.
From Stdlib Require Import Strings.Byte.
Import ListNotations.
Local Open Scope N_scope.

(* ------------------------------------------------------------------ *)
(** ** Text *)

Module Text.

(** A code point. *)
Definition char := N.

(** A Python [str]. *)
Definition str := list char.

(** A Python [bytes]. *)
Definition bytes := list byte.

(** An ASCII literal of the source as a [str]. *)
Definition lit (s : string) : str :=
  List.map N_of_ascii (list_ascii_of_string s).

Fixpoint str_eqb (a b : str) : bool :=
  match a, b with
  | [], [] => true
  | x :: a', y :: b' => (x =? y) && str_eqb a' b'
  | _, _ => false
  end.

(** [s.startswith(p)]. *)
Fixpoint startswith (p s : str) : bool :=
  match p, s with
  | [], _ => true
  | x :: p', y :: s' => (x =? y) && startswith p' s'
  | _ :: _, [] => false
  end.

(** [s.find(p)] counted from offset [i]: the lowest index at which [p]
    occurs in [s], or -1. *)
Fixpoint find_from (i : Z) (s p : str) : Z :=
  if startswith p s then i
  else match s with
       | [] => (-1)%Z
       | _ :: s' => find_from (i + 1)%Z s' p
       end.

(** [s.find(p)]. *)
Definition find (s p : str) : Z := find_from 0%Z s p.

(** [p] occurs in [s] as a contiguous run of characters. *)
Definition occurs_in (p s : str) : Prop :=
  exists a b, s = a ++ p ++ b.

(** *** [bytes.decode("utf-8")]

    The strict decoder: shortest encodings only, no surrogates, nothing
    above U+10FFFF.  [None] stands for [UnicodeDecodeError]. *)

Definition is_cont (b : N) : bool := (0x80 <=? b) && (b <=? 0xBF).

Definition in_range (lo hi b : N) : bool := (lo <=? b) && (b <=? hi).

Fixpoint decode_points (bs : list N) : option str :=
  match bs with
  | [] => Some []
  | b0 :: t0 =>
      if b0 <? 0x80 then
        option_map (cons b0) (decode_points t0)
      else if in_range 0xC2 0xDF b0 then
        match t0 with
        | b1 :: t1 =>
            if is_cont b1
            then option_map (cons ((b0 - 0xC0) * 64 + (b1 - 0x80)))
                            (decode_points t1)
            else None
        | _ => None
        end
      else if in_range 0xE0 0xEF b0 then
        match t0 with
        | b1 :: b2 :: t2 =>
            let lo := if b0 =? 0xE0 then 0xA0 else 0x80 in
            let hi := if b0 =? 0xED then 0x9F else 0xBF in
            if in_range lo hi b1 && is_cont b2
            then option_map
                   (cons ((b0 - 0xE0) * 4096 + (b1 - 0x80) * 64 + (b2 - 0x80)))
                   (decode_points t2)
            else None
        | _ => None
        end
      else if in_range 0xF0 0xF4 b0 then
        match t0 with
        | b1 :: b2 :: b3 :: t3 =>
            let lo := if b0 =? 0xF0 then 0x90 else 0x80 in
            let hi := if b0 =? 0xF4 then 0x8F else 0xBF in
            if in_range lo hi b1 && is_cont b2 && is_cont b3
            then option_map
                   (cons ((b0 - 0xF0) * 262144 + (b1 - 0x80) * 4096
                          + (b2 - 0x80) * 64 + (b3 - 0x80)))
                   (decode_points t3)
            else None
        | _ => None
        end
      else None
  end.

Definition decode_utf8 (bs : bytes) : option str :=
  decode_points (List.map Byte.to_N bs).

(** The UTF-8 encoding of an ASCII literal, for concrete process output. *)
Definition ascii_bytes (s : string) : bytes := list_byte_of_string s.

End Text.

Import Text.

(* ------------------------------------------------------------------ *)
(** ** Regular expressions

    The three patterns of the module use literals, one-character classes,
    greedy repetition of a one-character class, and capturing groups that
    do not nest.  [search] is [re.search]: the leftmost start position at
    which the backtracking matcher succeeds, greedy alternatives first. *)

Module Re.

Inductive item : Type :=
| Lit (c : char)                 (* the character itself *)
| Class (p : char -> bool)       (* one character of a class *)
| Star (p : char -> bool)        (* greedy [p*] *)
| GOpen                          (* a group opens *)
| GClose.                        (* the open group closes *)

(** [p+], which the engine runs as one [p] followed by [p*]. *)
Definition plus (p : char -> bool) : list item := [Class p; Star p].

(** The text of the group that is open, most recent character first. *)
Definition push (c : char) (cur : option str) : option str :=
  option_map (cons c) cur.

Definition close (cur : option str) (caps : list str) : list str :=
  match cur with
  | Some g => rev g :: caps
  | None => caps
  end.

(** Match the items at the head of the subject; the result is the tuple
    of [groups()]. *)
Fixpoint match_here (its : list item)
  : str -> option str -> list str -> option (list str) :=
  match its with
  | [] => fun _ _ caps => Some (rev caps)
  | Lit c :: r => fun s cur caps =>
      match s with
      | x :: s' => if x =? c then match_here r s' (push x cur) caps else None
      | [] => None
      end
  | Class p :: r => fun s cur caps =>
      match s with
      | x :: s' => if p x then match_here r s' (push x cur) caps else None
      | [] => None
      end
  | Star p :: r =>
      fix star (s : str) (cur : option str) (caps : list str)
        : option (list str) :=
        match s with
        | x :: s' =>
            if p x then
              match star s' (push x cur) caps with
              | Some g => Some g
              | None => match_here r s cur caps
              end
            else match_here r s cur caps
        | [] => match_here r [] cur caps
        end
  | GOpen :: r => fun s _ caps => match_here r s (Some []) caps
  | GClose :: r => fun s cur caps => match_here r s None (close cur caps)
  end.

(** [re.search(pattern, s)], reduced to the groups of the match. *)
Fixpoint search (its : list item) (s : str) : option (list str) :=
  match match_here its s None [] with
  | Some g => Some g
  | None =>
      match s with
      | [] => None
      | _ :: s' => search its s'
      end
  end.

(** [re.fullmatch]-style acceptance of a whole subject by a pattern that is
    a sequence of the items above; used only to phrase what an exact shape
    is.  A match must consume the subject to its end. *)
Fixpoint accepts (its : list item) : str -> bool :=
  match its with
  | [] => fun s => match s with [] => true | _ => false end
  | Lit c :: r => fun s =>
      match s with
      | x :: s' => (x =? c) && accepts r s'
      | [] => false
      end
  | Class p :: r => fun s =>
      match s with
      | x :: s' => p x && accepts r s'
      | [] => false
      end
  | Star p :: r =>
      fix star (s : str) : bool :=
        match s with
        | x :: s' => (p x && star s') || accepts r s
        | [] => accepts r []
        end
  | GOpen :: r => fun s => accepts r s
  | GClose :: r => fun s => accepts r s
  end.

(** Character classes. *)
Definition ch (a : string) : char :=
  match a with
  | String c _ => N_of_ascii c
  | EmptyString => 0
  end.

Definition ascii_digit (c : char) : bool := in_range 48 57 c.

Definition ascii_word (c : char) : bool :=
  in_range 48 57 c || in_range 65 90 c || in_range 97 122 c || (c =? 95).

(** [.] without DOTALL: anything but a line feed. *)
Definition dot (c : char) : bool := negb (c =? 10).

(** [[^-]]. *)
Definition not_hyphen (c : char) : bool := negb (c =? ch "-").

(** [[0-9.]]. *)
Definition digit_or_dot (c : char) : bool := ascii_digit c || (c =? ch ".").

(** The characters with a meaning of their own in a pattern. *)
Definition special (c : char) : bool :=
  existsb (N.eqb c) (lit ".^$*+?{}[]\|()").

(** A name interpolated into a pattern with [%s] is read by [re] as pattern
    text.  A name free of special characters is the sequence of its
    characters, and the matcher above runs the pattern; for any other name
    the answer of [re.search] is taken from the world. *)
Definition literal (name : str) : option (list item) :=
  if existsb special name then None else Some (List.map Lit name).

End Re.

(* ------------------------------------------------------------------ *)
(** ** The collaborators and the effects of the module *)

(** What an [SSHChannel] was constructed from; it identifies the session.
    The class defines no truth value of its own, so [if self.ssh:] asks
    whether the field holds a session. *)
Record SSHChannel : Type := mkSSHChannel {
  ch_host : str;
  ch_username : str;
  ch_password : str;
  ch_port : str
}.

(** What [re.search] answers for a pattern text and a subject: the text
    is no pattern ([re.error]), there is no match (None), or there is a
    match with its [groups()], where a group that took no part in the match
    is None. *)
Inductive Searched : Type :=
| BadPattern
| NoMatch
| Matched (groups : list (option str)).

(** The capabilities the module consumes.  [uni_word] and [uni_digit] are
    the Unicode tables behind [\w] and [\d] for code points above ASCII.
    The probe either returns or raises the VError that [validate] catches. *)
Record World : Type := mkWorld {
  uni_word : char -> bool;
  uni_digit : char -> bool;
  (* re.search(text, subject) for a pattern text with a package name in
     it that holds characters special in a pattern *)
  re_search_text : str -> str -> Searched;
  (* pwd.getpwuid(os.getuid()).pw_name *)
  pw_name : str;
  (* NetworkV().validate('passwordless', [user, host]):
     [true] when it returns, [false] when it raises VError *)
  passwordless : str -> str -> bool;
  (* SSHChannel(host, username, password, port): [Some text] is the
     traceback of the exception the constructor raised *)
  ssh_open : SSHChannel -> option str;
  (* SSHChannel.execute(cmd) -> (retcode, result) *)
  ssh_execute : SSHChannel -> str -> Z * str;
  (* SimpleProcess(cmd).run() -> (stdout, stderr, retcode) *)
  process_run : str -> bytes * bytes * Z
}.

Inductive Event : Type :=
| EProbe (user host : str)          (* the passwordless probe *)
| EConnect (c : SSHChannel)         (* SSHChannel(...) *)
| ESshExec (c : SSHChannel) (cmd : str)   (* self.ssh.execute(cmd) *)
| ELocalRun (cmd : str)             (* SimpleProcess(cmd).run() *)
| EDisconnect (c : SSHChannel).     (* self.ssh.disconnect() *)

Definition is_disconnect (e : Event) : bool :=
  match e with
  | EDisconnect _ => true
  | _ => false
  end.

(** The commands a trace ran, in order. *)
Fixpoint commands (t : list Event) : list str :=
  match t with
  | [] => []
  | ESshExec _ c :: r => c :: commands r
  | ELocalRun c :: r => c :: commands r
  | _ :: r => commands r
  end.

Definition EINVAL : Z := 22.

Inductive Exn : Type :=
| VError (code : Z) (msg : str)
| AttributeError         (* attribute access on None *)
| KeyError (key : str)
| TypeError              (* a list indexed by a str *)
| IndexError             (* an empty tuple indexed *)
| ReError                (* re.error: the pattern text does not compile *)
| UnicodeDecodeError.

(** The instance fields of [PkgV]. *)
Record PkgV : Type := mkPkgV {
  passwdless_ssh_enabled : bool;
  ssh : option SSHChannel
}.

(** [PkgV.__init__]. *)
Definition __init__ : PkgV :=
  {| passwdless_ssh_enabled := false; ssh := None |}.

(** The instance together with the events so far, oldest first. *)
Record State : Type := mkState {
  self : PkgV;
  trace : list Event
}.

(** How a block of statements ends. *)
Inductive Completion (A : Type) : Type :=
| Normal (a : A)        (* control reaches the end of the block *)
| Returned              (* a [return] whose value is None *)
| Raised (e : Exn).     (* an exception is propagating *)

Arguments Normal {A} a.
Arguments Returned {A}.
Arguments Raised {A} e.

Definition M (A : Type) : Type := State -> State * Completion A.

Definition ret {A} (a : A) : M A := fun s => (s, Normal a).

Definition bind {A B} (m : M A) (k : A -> M B) : M B :=
  fun s =>
    match m s with
    | (s', Normal a) => k a s'
    | (s', Returned) => (s', Returned)
    | (s', Raised e) => (s', Raised e)
    end.

Notation "x <- m ;; k" := (bind m (fun x => k))
  (at level 61, m at next level, right associativity).
Notation "m ;;; k" := (bind m (fun _ => k))
  (at level 61, right associativity).

Definition raise {A} (e : Exn) : M A := fun s => (s, Raised e).
Definition return_None {A} : M A := fun s => (s, Returned).

Definition get_self : M PkgV := fun s => (s, Normal (self s)).

Definition set_passwdless_ssh_enabled (b : bool) : M unit :=
  fun s => ({| self := {| passwdless_ssh_enabled := b; ssh := ssh (self s) |};
               trace := trace s |}, Normal tt).

Definition set_ssh (c : option SSHChannel) : M unit :=
  fun s => ({| self := {| passwdless_ssh_enabled :=
                            passwdless_ssh_enabled (self s);
                          ssh := c |};
               trace := trace s |}, Normal tt).

Definition tell (e : Event) : M unit :=
  fun s => ({| self := self s; trace := trace s ++ [e] |}, Normal tt).

(** The body of a function whose [return]s all carry None: the call
    evaluates to None whether the body returns or runs off its end. *)
Definition def (body : M unit) : M unit :=
  fun s =>
    match body s with
    | (s', Returned) => (s', Normal tt)
    | r => r
    end.

(** [for x in l: body]. *)
Fixpoint for_each {A} (l : list A) (body : A -> M unit) : M unit :=
  match l with
  | [] => ret tt
  | x :: r => body x ;;; for_each r body
  end.

(** The request: a sequence of names, or a dict from name to expected
    version, kept in insertion order. *)
Inductive Targets : Type :=
| Plain (names : list str)
| Versioned (d : list (str * str)).

(** [isinstance(pkgs, dict)]. *)
Definition is_dict (pkgs : Targets) : bool :=
  match pkgs with
  | Versioned _ => true
  | Plain _ => false
  end.

(** What [for pkg in pkgs] visits. *)
Definition iter (pkgs : Targets) : list str :=
  match pkgs with
  | Plain l => l
  | Versioned d => List.map fst d
  end.

Fixpoint dict_get (d : list (str * str)) (k : str) : option str :=
  match d with
  | [] => None
  | (k', v) :: r => if str_eqb k' k then Some v else dict_get r k
  end.

(** [pkgs[pkg]] inside the version check, where [pkgs] is a dict. *)
Definition subscript (pkgs : Targets) (k : str) : M str :=
  match pkgs with
  | Versioned d =>
      match dict_get d k with
      | Some v => ret v
      | None => raise (KeyError k)
      end
  | Plain _ => raise TypeError
  end.

(** ["%s" % host] for a host that is a [str] or None. *)
Definition fmt_host (host : option str) : str :=
  match host with
  | Some h => h
  | None => lit "None"
  end.

(** The truth value of [host]. *)
Definition truthy (host : option str) : bool :=
  match host with
  | Some (_ :: _) => true
  | _ => false
  end.

(* ------------------------------------------------------------------ *)
(** ** class PkgV *)

Module Pattern.
Import Re.

(** [\w] and [\d] of a [str] pattern: the ASCII classes extended by the
    Unicode tables of the world. *)
Definition word (w : World) (c : char) : bool :=
  if c <? 128 then ascii_word c else uni_word w c.

Definition digit (w : World) (c : char) : bool :=
  if c <? 128 then ascii_digit c else uni_digit w c.

(** [r"(\w+):(.+)@(.+):(\d+)"]. *)
Definition host_url (w : World) : list item :=
  [GOpen] ++ plus (word w) ++ [GClose; Lit (ch ":");
   GOpen] ++ plus dot ++ [GClose; Lit (ch "@");
   GOpen] ++ plus dot ++ [GClose; Lit (ch ":");
   GOpen] ++ plus (digit w) ++ [GClose].

(** [r"%s-([^-][0-9.]+)-" % pkg]. *)
Definition rpm_version (pkg : str) : option (list item) :=
  option_map
    (fun name => name ++ [Lit (ch "-"); GOpen; Class not_hyphen]
                   ++ plus digit_or_dot ++ [GClose; Lit (ch "-")])
    (literal pkg).

(** The pip3 pattern with the name interpolated: the name, a space, an
    escaped opening parenthesis, one group holding a greedy dot-star, an
    escaped closing parenthesis. *)
Definition pip3_version (pkg : str) : option (list item) :=
  option_map
    (fun name => name ++ [Lit (ch " "); Lit (ch "("); GOpen; Star dot;
                          GClose; Lit (ch ")")])
    (literal pkg).

End Pattern.

(** [matched_str.groups()[0]] for the result of a search; a failed search
    is None, which has no [groups]. *)
Definition first_group (m : option (list (option str))) : M (option str) :=
  match m with
  | None => raise AttributeError
  | Some (g :: _) => ret g
  | Some [] => raise IndexError
  end.

(** [re.search(pattern, result)] for an interpolated pattern, given as its
    text and, when the name in it is free of special characters, as the
    items the matcher runs.  The value is None or the groups of the match. *)
Definition re_search (w : World) (text : str) (pat : option (list Re.item))
    (subject : str) : M (option (list (option str))) :=
  match pat with
  | Some its => ret (option_map (List.map Some) (Re.search its subject))
  | None =>
      match re_search_text w text subject with
      | BadPattern => raise ReError
      | NoMatch => ret None
      | Matched groups => ret (Some groups)
      end
  end.

(** ["%s" % installed_version] for a group that is a [str] or None. *)
Definition fmt_s (v : option str) : str :=
  match v with
  | Some t => t
  | None => lit "None"
  end.

(** [installed_version != expected_version] for a group and a [str]. *)
Definition differs (installed : option str) (expected : str) : bool :=
  match installed with
  | Some v => negb (str_eqb v expected)
  | None => true
  end.

(** [stdout.decode("utf-8")]. *)
Definition decode (b : bytes) : M str :=
  match decode_utf8 b with
  | Some t => ret t
  | None => raise UnicodeDecodeError
  end.

(** [PkgV.__execute_cmd]. *)
Definition __execute_cmd (w : World) (cmd : str) : M str :=
  me <- get_self ;;
  rr <- match ssh me with
        | Some c =>
            tell (ESshExec c cmd) ;;;
            ret (ssh_execute w c cmd)
        | None =>
            tell (ELocalRun cmd) ;;;
            let '(stdout, stderr, retcode) := process_run w cmd in
            result <- (if (retcode =? 0)%Z then decode stdout
                       else decode stderr) ;;
            ret (retcode, result)
        end ;;
  let '(retcode, result) := rr in
  if negb (retcode =? 0)%Z then
    raise (VError EINVAL
             (lit "Command failure. cmd: " ++ cmd ++ lit " stderr: "
                ++ result))
  else ret result.

(** [PkgV.validate_rpm_pkgs]. *)
Definition validate_rpm_pkgs (w : World) (host : option str)
    (pkgs : Targets) (skip_version_check : bool) : M unit :=
  def (
    let rpm_cmd := lit "rpm -qa" in
    let skip_version_check :=
      if negb (is_dict pkgs) then true else skip_version_check in
    me <- get_self ;;
    let rpm_cmd :=
      if passwdless_ssh_enabled me
      then lit "ssh " ++ fmt_host host ++ lit " " ++ rpm_cmd
      else rpm_cmd in
    result <- __execute_cmd w rpm_cmd ;;
    for_each (iter pkgs) (fun pkg =>
      if (find result pkg =? -1)%Z then
        raise (VError EINVAL
                 (lit "rpm pkg " ++ pkg ++ lit " not installed."))
      else if negb skip_version_check then
        matched_str <- re_search w (pkg ++ lit "-([^-][0-9.]+)-")
                         (Pattern.rpm_version pkg) result ;;
        installed_version <- first_group matched_str ;;
        expected_version <- subscript pkgs pkg ;;
        if differs installed_version expected_version then
          raise (VError EINVAL
                   (lit "Mismatched version for rpm package " ++ pkg
                      ++ lit ". " ++ lit "Installed "
                      ++ fmt_s installed_version
                      ++ lit ". Expected " ++ expected_version ++ lit "."))
        else ret tt
      else ret tt)).

(** [PkgV.validate_pip3_pkgs]. *)
Definition validate_pip3_pkgs (w : World) (host : option str)
    (pkgs : Targets) (skip_version_check : bool) : M unit :=
  def (
    let pip3_cmd := lit "pip3 list" in
    let skip_version_check :=
      if negb (is_dict pkgs) then true else skip_version_check in
    me <- get_self ;;
    let pip3_cmd :=
      if passwdless_ssh_enabled me
      then lit "ssh " ++ fmt_host host ++ lit " " ++ pip3_cmd
      else pip3_cmd in
    result <- __execute_cmd w pip3_cmd ;;
    for_each (iter pkgs) (fun pkg =>
      if (find result pkg =? -1)%Z then
        raise (VError EINVAL
                 (lit "pip3 pkg " ++ pkg ++ lit " not installed."))
      else if negb skip_version_check then
        matched_str <- re_search w (pkg ++ lit " \((.*" ++ lit ")\)")
                         (Pattern.pip3_version pkg) result ;;
        installed_version <- first_group matched_str ;;
        expected_version <- subscript pkgs pkg ;;
        if differs installed_version expected_version then
          raise (VError EINVAL
                   (lit "Mismatched version for pip3 package " ++ pkg
                      ++ lit ". " ++ lit "Installed "
                      ++ fmt_s installed_version
                      ++ lit ". Expected " ++ expected_version ++ lit "."))
        else ret tt
      else ret tt)).

(** The [if host:] block of [validate]: the connection selection.  Its
    value is the local variable [host] as the block leaves it. *)
Definition select_connection (w : World) (host : option str)
  : M (option str) :=
  match host with
  | Some ((_ :: _) as h) =>
      tell (EProbe (pw_name w) h) ;;;
      if passwordless w (pw_name w) h then
        set_passwdless_ssh_enabled true ;;;
        ret host
      else
        let host_details := Re.search (Pattern.host_url w) h in
        match host_details with
        | None =>
            raise (VError EINVAL (lit
              "Invalid host_url format is given for passwordless ssh not configured host."))
        | Some groups =>
            if negb (Nat.eqb (List.length groups) 4) then
              raise (VError EINVAL (lit
                "Invalid host_url format is given for passwordless ssh not configured host."))
            else
              let user := nth 0 groups [] in
              let passwd := nth 1 groups [] in
              let host := nth 2 groups [] in
              let port := nth 3 groups [] in
              let c := {| ch_host := host; ch_username := user;
                          ch_password := passwd; ch_port := port |} in
              tell (EConnect c) ;;;
              match ssh_open w c with
              | Some err =>
                  raise (VError EINVAL
                           (lit "Failed to create ssh connection to " ++ host
                              ++ lit ", Error: " ++ err))
              | None =>
                  set_ssh (Some c) ;;;
                  ret (Some host)
              end
        end
  | _ => ret host
  end.

(** [PkgV.validate].  The per-kind validators are called with two
    arguments, so [skip_version_check] takes its default, True. *)
Definition validate (w : World) (v_type : str) (args : Targets)
    (host : option str) : M unit :=
  def (
    host <- select_connection w host ;;
    (if str_eqb v_type (lit "rpms") then
       validate_rpm_pkgs w host args true ;;; return_None
     else if str_eqb v_type (lit "pip3s") then
       validate_pip3_pkgs w host args true ;;; return_None
     else
       raise (VError EINVAL
                (lit "Action parameter " ++ v_type ++ lit " not supported"))
     : M unit) ;;;
    me <- get_self ;;
    match ssh me with
    | Some c => tell (EDisconnect c)
    | None => ret tt
    end).

(** A call on an instance: the state it starts from has the events of
    earlier calls removed, so a trace is the trace of one call. *)
Definition call {A} (m : M A) (me : PkgV) : State * Completion A :=
  m {| self := me; trace := [] |}.

(* ------------------------------------------------------------------ *)
(** ** The two per-kind validators as one

    [validate_rpm_pkgs] and [validate_pip3_pkgs] differ in their base
    command, their version pattern and the words of their messages. *)

Record Kind : Type := mkKind {
  base_cmd : str;
  pattern_text : str -> str;
  version_pattern : str -> option (list Re.item);
  not_installed : str -> str;
  mismatched : str -> str -> str -> str
}.

Definition rpm : Kind :=
  {| base_cmd := lit "rpm -qa";
     pattern_text := fun pkg => pkg ++ lit "-([^-][0-9.]+)-";
     version_pattern := Pattern.rpm_version;
     not_installed := fun pkg =>
       lit "rpm pkg " ++ pkg ++ lit " not installed.";
     mismatched := fun pkg installed expected =>
       lit "Mismatched version for rpm package " ++ pkg
         ++ lit ". " ++ lit "Installed " ++ installed
         ++ lit ". Expected " ++ expected ++ lit "." |}.

Definition pip3 : Kind :=
  {| base_cmd := lit "pip3 list";
     pattern_text := fun pkg => pkg ++ lit " \((.*" ++ lit ")\)";
     version_pattern := Pattern.pip3_version;
     not_installed := fun pkg =>
       lit "pip3 pkg " ++ pkg ++ lit " not installed.";
     mismatched := fun pkg installed expected =>
       lit "Mismatched version for pip3 package " ++ pkg
         ++ lit ". " ++ lit "Installed " ++ installed
         ++ lit ". Expected " ++ expected ++ lit "." |}.

(** The body of the [for] loop. *)
Definition check_pkg (w : World) (k : Kind) (pkgs : Targets)
    (skip_version_check : bool) (result : str) (pkg : str) : M unit :=
  if (find result pkg =? -1)%Z then
    raise (VError EINVAL (not_installed k pkg))
  else if negb skip_version_check then
    matched_str <- re_search w (pattern_text k pkg) (version_pattern k pkg)
                     result ;;
    installed_version <- first_group matched_str ;;
    expected_version <- subscript pkgs pkg ;;
    if differs installed_version expected_version then
      raise (VError EINVAL
               (mismatched k pkg (fmt_s installed_version) expected_version))
    else ret tt
  else ret tt.

Definition validate_pkgs (k : Kind) (w : World) (host : option str)
    (pkgs : Targets) (skip_version_check : bool) : M unit :=
  def (
    let skip_version_check :=
      if negb (is_dict pkgs) then true else skip_version_check in
    me <- get_self ;;
    let cmd :=
      if passwdless_ssh_enabled me
      then lit "ssh " ++ fmt_host host ++ lit " " ++ base_cmd k
      else base_cmd k in
    result <- __execute_cmd w cmd ;;
    for_each (iter pkgs) (check_pkg w k pkgs skip_version_check result)).

(** What [re.search] answers for the version pattern of the kind with
    [pkg] interpolated, on the output [result]. *)
Definition searched (w : World) (k : Kind) (pkg result : str) : Searched :=
  match version_pattern k pkg with
  | Some its =>
      match Re.search its result with
      | None => NoMatch
      | Some groups => Matched (List.map Some groups)
      end
  | None => re_search_text w (pattern_text k pkg) result
  end.

(** What one iteration decides; it reads the output and touches no state. *)
Definition verdict (w : World) (k : Kind) (pkgs : Targets) (skip : bool)
    (result : str) (pkg : str) : Completion unit :=
  if (find result pkg =? -1)%Z then Raised (VError EINVAL (not_installed k pkg))
  else if negb skip then
    match searched w k pkg result with
    | BadPattern => Raised ReError
    | NoMatch => Raised AttributeError
    | Matched [] => Raised IndexError
    | Matched (installed :: _) =>
        match pkgs with
        | Plain _ => Raised TypeError
        | Versioned d =>
            match dict_get d pkg with
            | None => Raised (KeyError pkg)
            | Some expected =>
                if differs installed expected
                then Raised (VError EINVAL
                               (mismatched k pkg (fmt_s installed) expected))
                else Normal tt
            end
        end
    end
  else Normal tt.

(** The first verdict of a run of iterations that is not [Normal]. *)
Fixpoint first_stop (w : World) (k : Kind) (pkgs : Targets) (skip : bool)
    (result : str) (l : list str) : Completion unit :=
  match l with
  | [] => Normal tt
  | pkg :: r =>
      match verdict w k pkgs skip result pkg with
      | Normal _ => first_stop w k pkgs skip result r
      | c => c
      end
  end.

(** The command line a validator builds. *)
Definition command_line (me : PkgV) (host : option str) (base : str) : str :=
  if passwdless_ssh_enabled me
  then lit "ssh " ++ fmt_host host ++ lit " " ++ base
  else base.

(** The event [__execute_cmd] leaves in the trace. *)
Definition exec_event (me : PkgV) (cmd : str) : Event :=
  match ssh me with
  | Some c => ESshExec c cmd
  | None => ELocalRun cmd
  end.

(** What [__execute_cmd] returns or raises, as a function of the
    instance alone. *)
Definition exec_result (w : World) (me : PkgV) (cmd : str)
  : Completion str :=
  match ssh me with
  | Some c =>
      let '(retcode, result) := ssh_execute w c cmd in
      if (retcode =? 0)%Z then Normal result
      else Raised (VError EINVAL
                     (lit "Command failure. cmd: " ++ cmd ++ lit " stderr: "
                        ++ result))
  | None =>
      let '(stdout, stderr, retcode) := process_run w cmd in
      match decode_utf8 (if (retcode =? 0)%Z then stdout else stderr) with
      | None => Raised UnicodeDecodeError
      | Some result =>
          if (retcode =? 0)%Z then Normal result
          else Raised (VError EINVAL
                         (lit "Command failure. cmd: " ++ cmd
                            ++ lit " stderr: " ++ result))
      end
  end.

(** The command ran and [__execute_cmd] returned [out]. *)
Definition output_of (w : World) (me : PkgV) (cmd out : str) : Prop :=
  snd (call (__execute_cmd w cmd) me) = Normal out.

Definition ran (s : State) (e : Event) : State :=
  {| self := self s; trace := trace s ++ [e] |}.

(* ------------------------------------------------------------------ *)
(** ** Vocabulary of the properties *)

(** The two supported kind tags. *)
Inductive Tag : Type := Rpms | Pip3s.

Definition tag_name (t : Tag) : str :=
  match t with
  | Rpms => lit "rpms"
  | Pip3s => lit "pip3s"
  end.

Definition kind (t : Tag) : Kind :=
  match t with
  | Rpms => rpm
  | Pip3s => pip3
  end.

(** The per-kind validator behind a tag. *)
Definition validator (t : Tag)
  : World -> option str -> Targets -> bool -> M unit :=
  match t with
  | Rpms => validate_rpm_pkgs
  | Pip3s => validate_pip3_pkgs
  end.

(** Version checking is off: the targets are no dict, or the flag says
    skip. *)
Definition skipping (pkgs : Targets) (skip_version_check : bool) : bool :=
  if negb (is_dict pkgs) then true else skip_version_check.

(** The version pattern of the kind, with [pkg] interpolated, finds a
    match in [out] whose first group is [installed]. *)
Definition extracted (k : Kind) (out pkg installed : str) : Prop :=
  exists its rest,
    version_pattern k pkg = Some its
    /\ Re.search its out = Some (installed :: rest).

(** The pattern is in the fragment and finds no match. *)
Definition no_match (k : Kind) (out pkg : str) : Prop :=
  exists its, version_pattern k pkg = Some its /\ Re.search its out = None.

(** The iteration for [pkg] ends without an error: the name occurs in
    the output and, when versions are checked, the extracted version is
    the expected one. *)
Definition passes (k : Kind) (pkgs : Targets) (skip_version_check : bool)
    (out pkg : str) : Prop :=
  occurs_in pkg out
  /\ (skipping pkgs skip_version_check = true
      \/ exists d v, pkgs = Versioned d
                     /\ extracted k out pkg v /\ dict_get d pkg = Some v).

(** The same for every name, the ones with special characters included:
    [re.search] with the version pattern of the kind finds a match whose
    first group is [installed], a text or None. *)
Definition extracted_as (w : World) (k : Kind) (out pkg : str)
    (installed : option str) : Prop :=
  exists rest, searched w k pkg out = Matched (installed :: rest).

(** [re.search] with the version pattern of the kind finds no match. *)
Definition unmatched (w : World) (k : Kind) (out pkg : str) : Prop :=
  searched w k pkg out = NoMatch.

(** The iteration for [pkg] ends without an error, for every name. *)
Definition accepted (w : World) (k : Kind) (pkgs : Targets)
    (skip_version_check : bool) (out pkg : str) : Prop :=
  occurs_in pkg out
  /\ (skipping pkgs skip_version_check = true
      \/ exists d v, pkgs = Versioned d
                     /\ extracted_as w k out pkg (Some v)
                     /\ dict_get d pkg = Some v).

(* ------------------------------------------------------------------ *)
(** ** Sample hosts and listings *)

Module Sample.

Definition nl : string := String "010"%char EmptyString.

Definition rpm_qa : string :=
  String.append "bash-4.2.46-34.el7.x86_64"
    (String.append nl (String.append "curl-7.29.0-59.el7.x86_64" nl)).

Definition pip3_list : string :=
  String.append "requests (2.25.1)" (String.append nl "six 1.15.0").

(** What a shell prints for a command line that ends in one of the two
    base commands. *)
Definition listing (cmd : str) : string :=
  if (find cmd (lit "rpm -qa") =? -1)%Z
  then if (find cmd (lit "pip3 list") =? -1)%Z
       then EmptyString
       else pip3_list
  else rpm_qa.

(** A host where every command succeeds; [keys] says whether
    passwordless ssh is configured.  The names asked for on the hosts of
    this module hold no special character, so [re_search_text] is never
    consulted there. *)
Definition world (keys : bool) : World :=
  {| uni_word := fun _ => false;
     uni_digit := fun _ => false;
     re_search_text := fun _ _ => BadPattern;
     pw_name := lit "root";
     passwordless := fun _ _ => keys;
     ssh_open := fun _ => None;
     ssh_execute := fun _ cmd => (0%Z, lit (listing cmd));
     process_run := fun cmd => (ascii_bytes (listing cmd), [], 0%Z) |}.

(** A host where every command fails and writes [err] to stderr. *)
Definition failing (err : bytes) : World :=
  {| uni_word := fun _ => false;
     uni_digit := fun _ => false;
     re_search_text := fun _ _ => BadPattern;
     pw_name := lit "root";
     passwordless := fun _ _ => false;
     ssh_open := fun _ => None;
     ssh_execute := fun _ _ => (1%Z, lit "rpm: command not found");
     process_run := fun _ => ([], err, 1%Z) |}.

Definition bash : str := lit "bash".
Definition curl : str := lit "curl".
Definition wget : str := lit "wget".
Definition six : str := lit "six".
Definition requests : str := lit "requests".

Definition node : SSHChannel :=
  {| ch_host := lit "node1"; ch_username := lit "admin";
     ch_password := lit "s3cret"; ch_port := lit "22" |}.

(** An instance that holds a session. *)
Definition in_session : PkgV :=
  {| passwdless_ssh_enabled := false; ssh := Some node |}.

End Sample.

(* ------------------------------------------------------------------ *)
(** ** The groups of a pattern *)

Module Shape.
Import Re.

Fixpoint closes (its : list item) : nat :=
  match its with
  | [] => 0
  | GClose :: r => S (closes r)
  | _ :: r => closes r
  end.

(** Groups do not nest and each one that opens closes. *)
Fixpoint balanced (open : bool) (its : list item) : bool :=
  match its with
  | [] => negb open
  | GOpen :: r => negb open && balanced true r
  | GClose :: r => open && balanced false r
  | _ :: r => balanced open r
  end.

Definition is_open (cur : option str) : bool :=
  match cur with
  | Some _ => true
  | None => false
  end.

End Shape.

(* ------------------------------------------------------------------ *)
(** ** Connection selection *)

Definition invalid_host_url : Exn :=
  VError EINVAL (lit
    "Invalid host_url format is given for passwordless ssh not configured host.").

(** The session [validate] opens for the groups of a match. *)
Definition channel_of (groups : list str) : SSHChannel :=
  {| ch_host := nth 2 groups []; ch_username := nth 0 groups [];
     ch_password := nth 1 groups []; ch_port := nth 3 groups [] |}.

(** The string [validate] is given where the spec calls for the exact
    shape [user:password@host:port]: the pattern read over the whole
    string, with nothing before the user and nothing after the port. *)
Definition exact_host_shape (w : World) (h : str) : bool :=
  Re.accepts (Pattern.host_url w) h.

Definition with_flag (me : PkgV) : PkgV :=
  {| passwdless_ssh_enabled := true; ssh := ssh me |}.

Definition with_session (me : PkgV) (c : SSHChannel) : PkgV :=
  {| passwdless_ssh_enabled := passwdless_ssh_enabled me; ssh := Some c |}.

(** The instance a first call leaves behind. *)
Definition after_keys : PkgV :=
  self (fst (call (validate (Sample.world true) (lit "rpms")
                     (Plain [Sample.bash]) (Some (lit "node1"))) __init__)).

Definition after_session : PkgV :=
  self (fst (call (validate (Sample.world false) (lit "rpms")
                     (Plain [Sample.bash])
                     (Some (lit "admin:s3cret@node1:22"))) __init__)).

(* ------------------------------------------------------------------ *)
(** ** Host strings and captured text *)

(** The text a group holds after the characters of [a] went into it. *)
Definition pushall (a : str) (cur : option str) : option str :=
  fold_left (fun acc c => Re.push c acc) a cur.

(** The host string made of four parts. *)
Definition host_string (user passwd host port : str) : str :=
  user ++ lit ":" ++ passwd ++ lit "@" ++ host ++ lit ":" ++ port.

(** No character of the text is the given one. *)
Definition free_of (c : char) (t : str) : bool :=
  forallb (fun x => negb (x =? c)) t.

(** A host that refuses every session with the given traceback and has
    no passwordless ssh. *)
Definition refusing (err : str) : World :=
  {| uni_word := fun _ => false;
     uni_digit := fun _ => false;
     re_search_text := fun _ _ => BadPattern;
     pw_name := lit "root";
     passwordless := fun _ _ => false;
     ssh_open := fun _ => Some err;
     ssh_execute := fun _ cmd => (0%Z, lit (Sample.listing cmd));
     process_run := fun cmd => (ascii_bytes (Sample.listing cmd), [], 0%Z) |}.

(** The name holds no character that is special in a pattern. *)
Definition plain_name (pkg : str) : Prop := Re.literal pkg <> None.

(** A host with packages whose names hold a dot, which a pattern reads
    as any character but a line feed. *)
Module Dotted.
Import Re.

Definition python36 : str := lit "python3.6".
Definition ruamel : str := lit "ruamel.yaml".

Definition listing (cmd : str) : string :=
  if (find cmd (lit "rpm -qa") =? -1)%Z
  then "ruamel.yaml 0.15.89"
  else String.append "python3.6-3.6.8-18.el7.x86_64" Sample.nl.

Definition answer (m : option (list str)) : Searched :=
  match m with
  | None => NoMatch
  | Some groups => Matched (List.map Some groups)
  end.

(** [re.search] for the two pattern texts these names give. *)
Definition re (text subject : str) : Searched :=
  if str_eqb text (lit "python3.6-([^-][0-9.]+)-") then
    answer (search
              (List.map Lit (lit "python3") ++ [Class dot; Lit (ch "6");
                 Lit (ch "-"); GOpen; Class not_hyphen]
                 ++ plus digit_or_dot ++ [GClose; Lit (ch "-")])
              subject)
  else if str_eqb text (lit "ruamel.yaml \((.*" ++ lit ")\)") then
    answer (search
              (List.map Lit (lit "ruamel") ++ [Class dot]
                 ++ List.map Lit (lit "yaml")
                 ++ [Lit (ch " "); Lit (ch "("); GOpen; Star dot; GClose;
                     Lit (ch ")")])
              subject)
  else BadPattern.

Definition world : World :=
  {| uni_word := fun _ => false;
     uni_digit := fun _ => false;
     re_search_text := re;
     pw_name := lit "root";
     passwordless := fun _ _ => false;
     ssh_open := fun _ => None;
     ssh_execute := fun _ cmd => (0%Z, lit (listing cmd));
     process_run := fun cmd => (ascii_bytes (listing cmd), [], 0%Z) |}.

End Dotted.

(* ------------------------------------------------------------------ *)
(** ** Text lemmas *)

Lemma str_eqb_eq (a b : str) : str_eqb a b = true <-> a = b.
Proof.
  revert b; induction a as [|x a IH]; intros [|y b]; simpl;
    try (split; [discriminate | congruence]); try tauto.
  rewrite andb_true_iff, N.eqb_eq, IH.
  split; [intros [-> ->]; reflexivity | intros H; inversion H; auto].
Qed.

Lemma str_eqb_refl (a : str) : str_eqb a a = true.
Proof. apply str_eqb_eq; reflexivity. Qed.

Lemma str_eqb_neq (a b : str) : str_eqb a b = false <-> a <> b.
Proof.
  rewrite <- str_eqb_eq. destruct (str_eqb a b); split; congruence.
Qed.

Lemma startswith_spec (p s : str) :
  startswith p s = true <-> exists b, s = p ++ b.
Proof.
  revert s; induction p as [|x p IH]; intros s; simpl.
  - split; [intros _; exists s; reflexivity | reflexivity].
  - destruct s as [|y s].
    + split; [discriminate | intros [b Hb]; discriminate].
    + rewrite andb_true_iff, N.eqb_eq, IH. split.
      * intros [-> [b ->]]. exists b; reflexivity.
      * intros [b Hb]. inversion Hb; subst. split; [reflexivity|].
        exists b; reflexivity.
Qed.

Lemma find_from_range (i : Z) (s p : str) :
  (0 <= i)%Z -> (find_from i s p = -1 \/ i <= find_from i s p)%Z.
Proof.
  revert i; induction s as [|y s IH]; intros i Hi; simpl.
  - destruct (startswith p []); [right; lia | left; reflexivity].
  - destruct (startswith p (y :: s)); [right; lia|].
    destruct (IH (i + 1)%Z); [lia | left; assumption | right; lia].
Qed.

Lemma find_from_miss (i : Z) (s p : str) :
  (0 <= i)%Z -> (find_from i s p = (-1)%Z <-> ~ occurs_in p s).
Proof.
  revert i; induction s as [|y s IH]; intros i Hi; simpl.
  - destruct (startswith p []) eqn:E.
    + split; [lia|]. intros Hn; exfalso; apply Hn.
      apply startswith_spec in E. destruct E as [b Hb].
      exists [], b; exact Hb.
    + split; [|reflexivity]. intros _ [a [b Hab]].
      destruct a; [|discriminate]. simpl in Hab.
      assert (startswith p [] = true) by (apply startswith_spec; eauto).
      congruence.
  - destruct (startswith p (y :: s)) eqn:E.
    + split; [lia|]. intros Hn; exfalso; apply Hn.
      apply startswith_spec in E. destruct E as [b Hb].
      exists [], b; exact Hb.
    + rewrite (IH (i + 1)%Z) by lia. split.
      * intros Hn [a [b Hab]]. destruct a as [|z a].
        -- assert (startswith p (y :: s) = true)
             by (apply startswith_spec; eauto).
           congruence.
        -- apply Hn. inversion Hab; subst. exists a, b; reflexivity.
      * intros Hn [a [b Hab]]. apply Hn. exists (y :: a), b.
        simpl; congruence.
Qed.

(** [result.find(pkg) == -1] holds exactly when the name does not occur. *)
Lemma find_miss (s p : str) :
  (find s p =? -1)%Z = true <-> ~ occurs_in p s.
Proof.
  rewrite Z.eqb_eq. apply find_from_miss. lia.
Qed.

Lemma find_from_hit (i : Z) (s p : str) :
  find_from i s p <> (-1)%Z -> occurs_in p s.
Proof.
  revert i; induction s as [|y s IH]; intros i; simpl.
  - destruct (startswith p []) eqn:E; [|congruence].
    intros _. apply startswith_spec in E. destruct E as [b Hb].
    exists [], b; exact Hb.
  - destruct (startswith p (y :: s)) eqn:E.
    + intros _. apply startswith_spec in E. destruct E as [b Hb].
      exists [], b; exact Hb.
    + intros Hf. destruct (IH (i + 1)%Z Hf) as [a [b Hab]].
      exists (y :: a), b. simpl; congruence.
Qed.

Lemma find_hit (s p : str) :
  (find s p =? -1)%Z = false <-> occurs_in p s.
Proof.
  split.
  - intros E. apply Z.eqb_neq in E. exact (find_from_hit 0%Z s p E).
  - intros Ho. destruct (find s p =? -1)%Z eqn:E; [|reflexivity].
    apply find_miss in E. contradiction.
Qed.

(* ------------------------------------------------------------------ *)
(** ** The per-kind validators and their command *)

Lemma validate_rpm_pkgs_kind :
  validate_rpm_pkgs = validate_pkgs rpm.
Proof. reflexivity. Qed.

Lemma validate_pip3_pkgs_kind :
  validate_pip3_pkgs = validate_pkgs pip3.
Proof. reflexivity. Qed.

Lemma check_pkg_verdict w k pkgs skip result pkg s :
  check_pkg w k pkgs skip result pkg s
  = (s, verdict w k pkgs skip result pkg).
Proof.
  unfold check_pkg, verdict, searched.
  destruct (find result pkg =? -1)%Z; [reflexivity|].
  destruct skip; simpl; [reflexivity|].
  unfold bind, re_search.
  destruct (version_pattern k pkg) as [its|].
  - unfold ret at 1.
    destruct (Re.search its result) as [[|g gs]|]; simpl; try reflexivity.
    unfold subscript.
    destruct pkgs as [l|d]; [reflexivity|].
    destruct (dict_get d pkg) as [v|]; [|reflexivity].
    unfold ret at 1. simpl. destruct (str_eqb g v); reflexivity.
  - destruct (re_search_text w (pattern_text k pkg) result) as [| |[|g gs]];
      simpl; try reflexivity.
    unfold subscript.
    destruct pkgs as [l|d]; [reflexivity|].
    destruct (dict_get d pkg) as [v|]; [|reflexivity].
    unfold ret at 1. destruct (differs g v); reflexivity.
Qed.

Lemma for_each_first_stop w k pkgs skip result l s :
  for_each l (check_pkg w k pkgs skip result) s
  = (s, first_stop w k pkgs skip result l).
Proof.
  induction l as [|pkg l IH]; simpl; [reflexivity|].
  unfold bind. rewrite check_pkg_verdict.
  destruct (verdict w k pkgs skip result pkg) as [[]| |];
    [exact IH | reflexivity ..].
Qed.

Lemma execute_cmd_run w cmd s :
  __execute_cmd w cmd s
  = (ran s (exec_event (self s) cmd), exec_result w (self s) cmd).
Proof.
  unfold __execute_cmd, exec_event, exec_result, ran, bind, get_self, tell.
  destruct (ssh (self s)) as [c|]; simpl.
  - unfold ret at 1. destruct (ssh_execute w c cmd) as [rc out].
    destruct (rc =? 0)%Z; reflexivity.
  - destruct (process_run w cmd) as [[so se] rc]. unfold decode.
    destruct (rc =? 0)%Z eqn:E.
    + destruct (decode_utf8 so); simpl; [|reflexivity].
      unfold ret. simpl. rewrite E. reflexivity.
    + destruct (decode_utf8 se); simpl; [|reflexivity].
      unfold ret. simpl. rewrite E. reflexivity.
Qed.

Lemma output_of_result w me cmd out :
  output_of w me cmd out <-> exec_result w me cmd = Normal out.
Proof.
  unfold output_of, call. rewrite execute_cmd_run. reflexivity.
Qed.

(** An iteration never leaves the loop by [return]. *)
Lemma first_stop_not_returned w k pkgs skip result l :
  first_stop w k pkgs skip result l <> Returned.
Proof.
  induction l as [|pkg l IH]; simpl; [discriminate|].
  destruct (verdict w k pkgs skip result pkg) as [[]| |] eqn:E;
    try assumption; try discriminate.
  unfold verdict in E.
  repeat match type of E with
         | (if ?b then _ else _) = _ => destruct b
         | match ?x with _ => _ end = _ => destruct x
         end; discriminate.
Qed.

(** A validator call: the command line is built from the instance, the
    command runs, and the loop decides. *)
Lemma validate_pkgs_run k w host pkgs skip s :
  validate_pkgs k w host pkgs skip s
  = let cmd := command_line (self s) host (base_cmd k) in
    (ran s (exec_event (self s) cmd),
     match exec_result w (self s) cmd with
     | Normal out =>
         first_stop w k pkgs (if negb (is_dict pkgs) then true else skip)
                    out (iter pkgs)
     | Returned => Normal tt
     | Raised e => Raised e
     end).
Proof.
  unfold validate_pkgs, def, bind at 1, get_self, command_line. simpl.
  unfold bind. rewrite execute_cmd_run.
  set (cmd := if passwdless_ssh_enabled (self s) then _ else _).
  destruct (exec_result w (self s) cmd) as [out| |]; try reflexivity.
  rewrite for_each_first_stop.
  pose proof (first_stop_not_returned w k pkgs
                (if negb (is_dict pkgs) then true else skip) out (iter pkgs)).
  destruct (first_stop _ _ _ _ _ _); try reflexivity. congruence.
Qed.

(* ------------------------------------------------------------------ *)
(** ** The loop over the requested packages *)

Lemma extracted_searched w k out pkg v :
  extracted k out pkg v -> extracted_as w k out pkg (Some v).
Proof.
  intros (its & rest & Hp & Hs). exists (List.map Some rest).
  unfold searched. rewrite Hp, Hs. reflexivity.
Qed.

Lemma no_match_searched w k out pkg :
  no_match k out pkg -> unmatched w k out pkg.
Proof.
  intros (its & Hp & Hs). unfold unmatched, searched.
  rewrite Hp, Hs. reflexivity.
Qed.

Lemma passes_accepted w k pkgs skip out pkg :
  passes k pkgs skip out pkg -> accepted w k pkgs skip out pkg.
Proof.
  intros [Hocc [Hs | (d & v & Hd & He & Hg)]]; split; auto.
  right. exists d, v. repeat split; auto. apply extracted_searched, He.
Qed.

Lemma differs_same v : differs (Some v) v = false.
Proof. simpl. rewrite str_eqb_refl. reflexivity. Qed.

Lemma differs_other installed expected :
  installed <> Some expected -> differs installed expected = true.
Proof.
  destruct installed as [v|]; [|reflexivity]. simpl. intros Hn.
  apply negb_true_iff, str_eqb_neq. congruence.
Qed.

Lemma accepted_verdict w k pkgs skip out pkg :
  accepted w k pkgs skip out pkg ->
  verdict w k pkgs (skipping pkgs skip) out pkg = Normal tt.
Proof.
  intros [Hocc Hv]. unfold verdict.
  apply find_hit in Hocc. rewrite Hocc.
  destruct Hv as [-> | (d & v & -> & (rest & Hs) & Hd)];
    [reflexivity|].
  destruct (skipping (Versioned d) skip); [reflexivity|]. simpl.
  rewrite Hs, Hd, differs_same. reflexivity.
Qed.

Lemma first_stop_accept w k pkgs skip out l :
  Forall (accepted w k pkgs skip out) l ->
  first_stop w k pkgs (skipping pkgs skip) out l = Normal tt.
Proof.
  induction 1 as [|pkg l Hp _ IH]; simpl; [reflexivity|].
  rewrite (accepted_verdict _ _ _ _ _ _ Hp). exact IH.
Qed.

Lemma first_stop_pass w k pkgs skip out l :
  Forall (passes k pkgs skip out) l ->
  first_stop w k pkgs (skipping pkgs skip) out l = Normal tt.
Proof.
  intros H. apply first_stop_accept.
  eapply Forall_impl; [|exact H]. intros pkg. apply passes_accepted.
Qed.

Lemma first_stop_at_accepted w k pkgs skip out pre p post c :
  Forall (accepted w k pkgs skip out) pre ->
  verdict w k pkgs (skipping pkgs skip) out p = c ->
  (forall u, c <> Normal u) ->
  first_stop w k pkgs (skipping pkgs skip) out (pre ++ p :: post) = c.
Proof.
  intros Hpre Hv Hc.
  induction Hpre as [|q pre Hq _ IH]; simpl.
  - rewrite Hv. destruct c as [u| |]; try reflexivity.
    exfalso; exact (Hc u eq_refl).
  - rewrite (accepted_verdict _ _ _ _ _ _ Hq). exact IH.
Qed.

Lemma first_stop_at w k pkgs skip out pre p post c :
  Forall (passes k pkgs skip out) pre ->
  verdict w k pkgs (skipping pkgs skip) out p = c ->
  (forall u, c <> Normal u) ->
  first_stop w k pkgs (skipping pkgs skip) out (pre ++ p :: post) = c.
Proof.
  intros Hpre. apply first_stop_at_accepted.
  eapply Forall_impl; [|exact Hpre]. intros pkg. apply passes_accepted.
Qed.

Lemma validator_kind t : validator t = validate_pkgs (kind t).
Proof. destruct t; reflexivity. Qed.

(** A validator whose command returned [out] ends as its loop ends. *)
Lemma validator_result t w me host pkgs skip out :
  output_of w me (command_line me host (base_cmd (kind t))) out ->
  snd (call (validator t w host pkgs skip) me)
  = first_stop w (kind t) pkgs (skipping pkgs skip) out (iter pkgs).
Proof.
  intros Ho. apply output_of_result in Ho.
  rewrite validator_kind. unfold call. rewrite validate_pkgs_run. simpl.
  rewrite Ho. reflexivity.
Qed.

(* ------------------------------------------------------------------ *)
(** ** Plain lists and missing packages *)

(** C4.  A request given as a plain list, all of whose names occur in the
    output of the executed command, succeeds and returns None, for the rpm
    and for the pip3 validator; whatever the version-check flag says the
    call runs exactly as it does with version checking skipped. *)
Theorem plain_list_succeeds
    (t : Tag) (w : World) (me : PkgV) (host : option str)
    (names : list str) (skip_version_check : bool) (out : str) :
  output_of w me (command_line me host (base_cmd (kind t))) out ->
  Forall (fun pkg => occurs_in pkg out) names ->
  snd (call (validator t w host (Plain names) skip_version_check) me)
  = Normal tt
  /\ call (validator t w host (Plain names) skip_version_check) me
     = call (validator t w host (Plain names) true) me.
Proof.
  intros Ho Hall. split.
  - rewrite (validator_result _ _ _ _ _ _ _ Ho).
    apply first_stop_pass.
    eapply Forall_impl; [|exact Hall].
    intros pkg Hp. split; [exact Hp | left; reflexivity].
  - rewrite validator_kind. unfold call.
    rewrite !validate_pkgs_run. reflexivity.
Qed.

Lemma plain_list_succeeds_witness :
  snd (call (validator Rpms (Sample.world false) None
               (Plain [Sample.bash; Sample.curl]) false) __init__)
  = Normal tt
  /\ call (validator Rpms (Sample.world false) None
             (Plain [Sample.bash; Sample.curl]) false) __init__
     = call (validator Rpms (Sample.world false) None
               (Plain [Sample.bash; Sample.curl]) true) __init__.
Proof.
  apply (plain_list_succeeds Rpms (Sample.world false) __init__ None
           [Sample.bash; Sample.curl] false (lit Sample.rpm_qa)).
  - reflexivity.
  - repeat constructor.
    + exists [], (lit (String.append "-4.2.46-34.el7.x86_64"
                         (String.append Sample.nl
                            (String.append "curl-7.29.0-59.el7.x86_64"
                               Sample.nl)))).
      reflexivity.
    + exists (lit (String.append "bash-4.2.46-34.el7.x86_64" Sample.nl)),
             (lit (String.append "-7.29.0-59.el7.x86_64" Sample.nl)).
      reflexivity.
Defined.

(** C5.  When a requested name does not occur in the output of the
    executed command and every name before it passes, the call raises the
    package-not-installed error that names it, for rpm and for pip3; the
    names after it play no part. *)
Theorem first_missing_package_aborts
    (t : Tag) (w : World) (me : PkgV) (host : option str)
    (pkgs : Targets) (skip_version_check : bool) (out : str)
    (pre : list str) (pkg : str) (post : list str) :
  output_of w me (command_line me host (base_cmd (kind t))) out ->
  iter pkgs = pre ++ pkg :: post ->
  Forall (passes (kind t) pkgs skip_version_check out) pre ->
  ~ occurs_in pkg out ->
  snd (call (validator t w host pkgs skip_version_check) me)
  = Raised (VError EINVAL
              (lit (match t with Rpms => "rpm pkg " | Pip3s => "pip3 pkg " end)
                 ++ pkg ++ lit " not installed.")).
Proof.
  intros Ho Hit Hpre Hmiss.
  rewrite (validator_result _ _ _ _ _ _ _ Ho), Hit.
  apply first_stop_at; [exact Hpre | | discriminate].
  unfold verdict. apply find_miss in Hmiss. rewrite Hmiss.
  destruct t; reflexivity.
Qed.

Lemma first_missing_package_aborts_witness :
  snd (call (validator Rpms (Sample.world false) None
               (Plain [Sample.bash; Sample.wget; Sample.six]) true) __init__)
  = Raised (VError EINVAL (lit "rpm pkg wget not installed.")).
Proof.
  apply (first_missing_package_aborts Rpms (Sample.world false) __init__ None
           (Plain [Sample.bash; Sample.wget; Sample.six]) true
           (lit Sample.rpm_qa) [Sample.bash] Sample.wget [Sample.six]).
  - reflexivity.
  - reflexivity.
  - repeat constructor.
    exists [], (lit (String.append "-4.2.46-34.el7.x86_64"
                       (String.append Sample.nl
                          (String.append "curl-7.29.0-59.el7.x86_64"
                             Sample.nl)))).
    reflexivity.
  - apply find_miss. reflexivity.
Defined.

(* ------------------------------------------------------------------ *)
(** ** The dispatch of [validate] *)

Lemma validate_pkgs_not_returned k w host pkgs skip s :
  snd (validate_pkgs k w host pkgs skip s) <> Returned.
Proof.
  rewrite validate_pkgs_run. simpl.
  destruct (exec_result w (self s) _); try discriminate.
  apply first_stop_not_returned.
Qed.

(** The statement after the dispatch is never reached: each branch of
    the dispatch leaves [validate] by [return] or by [raise]. *)
Lemma validate_dispatch w v_type args host s :
  validate w v_type args host s
  = match select_connection w host s with
    | (s1, Normal h) =>
        if str_eqb v_type (lit "rpms") then
          validate_pkgs rpm w h args true s1
        else if str_eqb v_type (lit "pip3s") then
          validate_pkgs pip3 w h args true s1
        else
          (s1, Raised (VError EINVAL
                         (lit "Action parameter " ++ v_type
                            ++ lit " not supported")))
    | (s1, Returned) => (s1, Normal tt)
    | (s1, Raised e) => (s1, Raised e)
    end.
Proof.
  unfold validate, def, bind.
  destruct (select_connection w host s) as [s1 [h| |]]; try reflexivity.
  destruct (str_eqb v_type (lit "rpms")).
  - rewrite validate_rpm_pkgs_kind.
    pose proof (validate_pkgs_not_returned rpm w h args true s1) as Hn.
    destruct (validate_pkgs rpm w h args true s1) as [s2 [[]| |]];
      simpl in *; try reflexivity. congruence.
  - destruct (str_eqb v_type (lit "pip3s")); [|reflexivity].
    rewrite validate_pip3_pkgs_kind.
    pose proof (validate_pkgs_not_returned pip3 w h args true s1) as Hn.
    destruct (validate_pkgs pip3 w h args true s1) as [s2 [[]| |]];
      simpl in *; try reflexivity. congruence.
Qed.

(** Once connection selection has completed, a [validate] call with a
    supported tag is the call of the validator behind the tag, with the
    version check skipped. *)
Lemma validate_runs_validator t w me args host s1 h :
  call (select_connection w host) me = (s1, Normal h) ->
  call (validate w (tag_name t) args host) me = validator t w h args true s1.
Proof.
  unfold call. intros Hs. rewrite validate_dispatch, Hs.
  destruct t; reflexivity.
Qed.

(** With version checking skipped the loop reads only the names. *)
Lemma first_stop_skipping w k pkgs pkgs' out l :
  first_stop w k pkgs true out l = first_stop w k pkgs' true out l.
Proof.
  induction l as [|pkg l IH]; simpl; [reflexivity|].
  rewrite IH. unfold verdict. simpl.
  destruct (find out pkg =? -1)%Z; reflexivity.
Qed.

(* ------------------------------------------------------------------ *)
(** ** Version checks *)

(** C1, as the code has it.  Version checking happens only in a per-kind
    validator called with [skip_version_check] False on a dict.  There,
    for every name, when each name occurs in the output and each version
    that [re.search] extracts is the expected one, the call succeeds; when
    the names before [pkg] pass and the first group of the match for [pkg]
    differs from the expected version, the call raises the mismatch error
    naming [pkg], the installed and the expected version.  [validate]
    itself calls the validators with the flag at its default: there a dict
    is treated as the list of its keys. *)
Theorem version_check_on_mapping
    (t : Tag) (w : World) (me : PkgV) (host : option str)
    (d : list (str * str)) (out : str) :
  output_of w me (command_line me host (base_cmd (kind t))) out ->
  (Forall (accepted w (kind t) (Versioned d) false out) (List.map fst d) ->
   snd (call (validator t w host (Versioned d) false) me) = Normal tt)
  /\ (forall pre pkg post installed expected,
        List.map fst d = pre ++ pkg :: post ->
        Forall (accepted w (kind t) (Versioned d) false out) pre ->
        occurs_in pkg out ->
        extracted_as w (kind t) out pkg installed ->
        dict_get d pkg = Some expected ->
        installed <> Some expected ->
        snd (call (validator t w host (Versioned d) false) me)
        = Raised (VError EINVAL
                    (lit (match t with
                          | Rpms => "Mismatched version for rpm package "
                          | Pip3s => "Mismatched version for pip3 package "
                          end)
                       ++ pkg ++ lit ". Installed " ++ fmt_s installed
                       ++ lit ". Expected " ++ expected ++ lit ".")))
  /\ (forall v_type host0,
        call (validate w v_type (Versioned d) host0) me
        = call (validate w v_type (Plain (List.map fst d)) host0) me).
Proof.
  intros Ho. split; [|split].
  - intros Hall. rewrite (validator_result _ _ _ _ _ _ _ Ho).
    apply (first_stop_accept _ _ _ false). exact Hall.
  - intros pre pkg post installed expected Hit Hpre Hocc Hex Hd Hne.
    rewrite (validator_result _ _ _ _ _ _ _ Ho). simpl iter. rewrite Hit.
    apply (first_stop_at_accepted _ _ _ false);
      [exact Hpre | | discriminate].
    unfold verdict. apply find_hit in Hocc. rewrite Hocc. simpl.
    destruct Hex as (rest & Hs). rewrite Hs, Hd.
    rewrite (differs_other _ _ Hne).
    destruct t; reflexivity.
  - intros v_type host0. unfold call. rewrite !validate_dispatch.
    destruct (select_connection w host0 _) as [s1 [h| |]]; reflexivity.
Qed.

Lemma version_check_on_mapping_witness :
  (snd (call (validator Rpms (Sample.world false) None
                (Versioned [(Sample.bash, lit "4.2.46")]) false) __init__)
   = Normal tt
   /\ snd (call (validator Rpms (Sample.world false) None
                   (Versioned [(Sample.bash, lit "4.2.46");
                               (Sample.curl, lit "7.30")]) false) __init__)
      = Raised (VError EINVAL (lit
          "Mismatched version for rpm package curl. Installed 7.29.0. Expected 7.30.")))
  /\ (snd (call (validator Rpms Dotted.world None
                   (Versioned [(Dotted.python36, lit "3.6.8")]) false)
              __init__)
      = Normal tt
      /\ snd (call (validator Rpms Dotted.world None
                      (Versioned [(Dotted.python36, lit "3.7")]) false)
                 __init__)
         = Raised (VError EINVAL (lit
             "Mismatched version for rpm package python3.6. Installed 3.6.8. Expected 3.7."))).
Proof.
  assert (Hbash : forall d,
             dict_get d Sample.bash = Some (lit "4.2.46") ->
             accepted (Sample.world false) rpm (Versioned d) false
               (lit Sample.rpm_qa) Sample.bash).
  { intros d Hd. split.
    - apply find_hit. reflexivity.
    - right. exists d, (lit "4.2.46"). split; [reflexivity|]. split.
      + eexists. vm_compute. reflexivity.
      + exact Hd. }
  split; split.
  - apply (proj1 (version_check_on_mapping Rpms (Sample.world false)
                    __init__ None [(Sample.bash, lit "4.2.46")]
                    (lit Sample.rpm_qa) eq_refl)).
    constructor; [apply Hbash; reflexivity | constructor].
  - apply (proj1 (proj2 (version_check_on_mapping Rpms (Sample.world false)
                           __init__ None
                           [(Sample.bash, lit "4.2.46");
                            (Sample.curl, lit "7.30")]
                           (lit Sample.rpm_qa) eq_refl))
             [Sample.bash] Sample.curl [] (Some (lit "7.29.0")) (lit "7.30")).
    + reflexivity.
    + constructor; [apply Hbash; reflexivity | constructor].
    + apply find_hit. reflexivity.
    + eexists. vm_compute. reflexivity.
    + reflexivity.
    + discriminate.
  - apply (proj1 (version_check_on_mapping Rpms Dotted.world
                    __init__ None [(Dotted.python36, lit "3.6.8")]
                    (lit (Dotted.listing (lit "rpm -qa"))) eq_refl)).
    constructor; [|constructor]. split.
    + apply find_hit. reflexivity.
    + right. eexists. exists (lit "3.6.8"). split; [reflexivity|]. split.
      * eexists. vm_compute. reflexivity.
      * reflexivity.
  - apply (proj1 (proj2 (version_check_on_mapping Rpms Dotted.world
                           __init__ None [(Dotted.python36, lit "3.7")]
                           (lit (Dotted.listing (lit "rpm -qa"))) eq_refl))
             [] Dotted.python36 [] (Some (lit "3.6.8")) (lit "3.7")).
    + reflexivity.
    + constructor.
    + apply find_hit. reflexivity.
    + eexists. vm_compute. reflexivity.
    + reflexivity.
    + discriminate.
Defined.

(** C1 as stated fails: through [validate] a dict whose expected version
    differs from the extracted one is accepted. *)
Lemma validate_ignores_expected_version :
  extracted rpm (lit Sample.rpm_qa) Sample.bash (lit "4.2.46")
  /\ dict_get [(Sample.bash, lit "5.0")] Sample.bash = Some (lit "5.0")
  /\ lit "4.2.46" <> lit "5.0"
  /\ snd (call (validate (Sample.world false) (lit "rpms")
                  (Versioned [(Sample.bash, lit "5.0")]) None) __init__)
     = Normal tt.
Proof.
  split; [|split; [|split]].
  - eexists. eexists. split; [reflexivity | vm_compute; reflexivity].
  - reflexivity.
  - discriminate.
  - reflexivity.
Qed.

(** C10.  In a per-kind validator that checks versions on a dict, for
    every name: when the names before [pkg] pass, [pkg] occurs in the
    output and [re.search] with the version pattern finds no match, the
    call ends in the AttributeError of [None.groups()], which is none of
    the module's VErrors; for rpm and for pip3. *)
Theorem unmatched_version_raises_untyped
    (t : Tag) (w : World) (me : PkgV) (host : option str)
    (d : list (str * str)) (out : str)
    (pre : list str) (pkg : str) (post : list str) :
  output_of w me (command_line me host (base_cmd (kind t))) out ->
  List.map fst d = pre ++ pkg :: post ->
  Forall (accepted w (kind t) (Versioned d) false out) pre ->
  occurs_in pkg out ->
  unmatched w (kind t) out pkg ->
  snd (call (validator t w host (Versioned d) false) me)
  = Raised AttributeError
  /\ forall code msg,
       snd (call (validator t w host (Versioned d) false) me)
       <> Raised (VError code msg).
Proof.
  intros Ho Hit Hpre Hocc Hs.
  assert (E : snd (call (validator t w host (Versioned d) false) me)
              = Raised AttributeError).
  { rewrite (validator_result _ _ _ _ _ _ _ Ho). simpl iter. rewrite Hit.
    apply (first_stop_at_accepted _ _ _ false);
      [exact Hpre | | discriminate].
    unfold verdict. apply find_hit in Hocc. rewrite Hocc. simpl.
    unfold unmatched in Hs. rewrite Hs. reflexivity. }
  split; [exact E|]. intros code msg. rewrite E. discriminate.
Qed.

Lemma unmatched_version_raises_untyped_witness :
  (snd (call (validator Pip3s (Sample.world false) None
                (Versioned [(Sample.six, lit "1.15.0")]) false) __init__)
   = Raised AttributeError
   /\ forall code msg,
        snd (call (validator Pip3s (Sample.world false) None
                     (Versioned [(Sample.six, lit "1.15.0")]) false) __init__)
        <> Raised (VError code msg))
  /\ (snd (call (validator Pip3s Dotted.world None
                   (Versioned [(Dotted.ruamel, lit "0.15.89")]) false)
              __init__)
      = Raised AttributeError
      /\ forall code msg,
           snd (call (validator Pip3s Dotted.world None
                        (Versioned [(Dotted.ruamel, lit "0.15.89")]) false)
                   __init__)
           <> Raised (VError code msg)).
Proof.
  split.
  - apply (unmatched_version_raises_untyped Pip3s (Sample.world false)
             __init__ None [(Sample.six, lit "1.15.0")]
             (lit Sample.pip3_list) [] Sample.six []).
    + reflexivity.
    + reflexivity.
    + constructor.
    + apply find_hit. reflexivity.
    + vm_compute. reflexivity.
  - apply (unmatched_version_raises_untyped Pip3s Dotted.world
             __init__ None [(Dotted.ruamel, lit "0.15.89")]
             (lit (Dotted.listing (lit "pip3 list"))) [] Dotted.ruamel []).
    + reflexivity.
    + reflexivity.
    + constructor.
    + apply find_hit. reflexivity.
    + vm_compute. reflexivity.
Defined.

(* ------------------------------------------------------------------ *)
(** ** Groups of a match *)

Module ReFacts.
Import Re Shape.

Lemma is_open_push c cur : is_open (push c cur) = is_open cur.
Proof. destruct cur; reflexivity. Qed.

Lemma match_here_groups its :
  forall s cur caps g,
    balanced (is_open cur) its = true ->
    match_here its s cur caps = Some g ->
    List.length g = (List.length caps + closes its)%nat.
Proof.
  induction its as [|it r IH]; intros s cur caps g Hb Hm.
  - simpl in Hm. inversion Hm; subst. rewrite length_rev. simpl. lia.
  - destruct it as [c|p|p| |]; simpl in Hb.
    + simpl in Hm. destruct s as [|x s']; [discriminate|].
      destruct (x =? c); [|discriminate].
      apply IH in Hm; [exact Hm | rewrite is_open_push; exact Hb].
    + simpl in Hm. destruct s as [|x s']; [discriminate|].
      destruct (p x); [|discriminate].
      apply IH in Hm; [exact Hm | rewrite is_open_push; exact Hb].
    + revert cur caps Hb Hm.
      induction s as [|x s' IHs]; intros cur caps Hb Hm.
      * simpl in Hm. apply IH in Hm; [exact Hm | exact Hb].
      * simpl in Hm. simpl closes.
        destruct (p x).
        -- match type of Hm with
           | match ?e with _ => _ end = _ => destruct e as [g'|] eqn:E
           end.
           ++ inversion Hm; subst g'.
              apply (IHs (push x cur) caps);
                [rewrite is_open_push; exact Hb | exact E].
           ++ apply IH in Hm; [exact Hm | exact Hb].
        -- apply IH in Hm; [exact Hm | exact Hb].
    + simpl in Hm. apply andb_true_iff in Hb. destruct Hb as [_ Hb].
      apply IH in Hm; [exact Hm | exact Hb].
    + simpl in Hm. apply andb_true_iff in Hb. destruct Hb as [Ho Hb].
      apply IH in Hm; [|exact Hb].
      destruct cur as [cg|]; [|discriminate]. simpl in Hm. simpl. lia.
Qed.

Lemma search_groups its s g :
  balanced false its = true ->
  search its s = Some g ->
  List.length g = closes its.
Proof.
  intros Hb. induction s as [|x s IH]; simpl.
  - destruct (match_here its [] None []) eqn:E; [|discriminate].
    intros Hg; inversion Hg; subst.
    apply match_here_groups in E; [exact E | exact Hb].
  - destruct (match_here its (x :: s) None []) eqn:E; [|exact IH].
    intros Hg; inversion Hg; subst.
    apply match_here_groups in E; [exact E | exact Hb].
Qed.

(** Whatever a pattern accepts as a whole, the matcher matches at the
    head of the subject. *)
Lemma accepts_match_here its :
  forall s cur caps,
    accepts its s = true -> match_here its s cur caps <> None.
Proof.
  induction its as [|it r IH]; intros s cur caps Ha.
  - simpl. discriminate.
  - destruct it as [c|p|p| |].
    + simpl in *. destruct s as [|x s']; [discriminate|].
      apply andb_true_iff in Ha. destruct Ha as [-> Ha]. apply IH, Ha.
    + simpl in *. destruct s as [|x s']; [discriminate|].
      apply andb_true_iff in Ha. destruct Ha as [-> Ha]. apply IH, Ha.
    + revert cur caps Ha.
      induction s as [|x s' IHs]; intros cur caps Ha.
      * simpl in *. apply IH, Ha.
      * simpl in *. apply orb_true_iff in Ha.
        destruct (p x) eqn:Ep.
        -- match goal with
           | |- match ?e with _ => _ end <> _ => destruct e as [g'|] eqn:E
           end; [discriminate|].
           destruct Ha as [Ha | Ha].
           ++ exfalso. simpl in Ha.
              exact (IHs (push x cur) caps Ha E).
           ++ apply IH, Ha.
        -- destruct Ha as [Ha | Ha]; [discriminate | apply IH, Ha].
    + simpl in *. apply IH, Ha.
    + simpl in *. apply IH, Ha.
Qed.

Lemma accepts_search its s :
  accepts its s = true -> search its s <> None.
Proof.
  intros Ha. pose proof (accepts_match_here its s None [] Ha) as Hm.
  destruct s; simpl; destruct (match_here its _ None []);
    congruence.
Qed.

End ReFacts.

(** A match of the host pattern has four groups. *)
Lemma host_url_groups w h groups :
  Re.search (Pattern.host_url w) h = Some groups ->
  exists user passwd host port, groups = [user; passwd; host; port].
Proof.
  intros Hs. apply ReFacts.search_groups in Hs; [|reflexivity].
  simpl in Hs.
  destruct groups as [|a [|b [|c [|d [|e r]]]]]; try discriminate.
  exists a, b, c, d. reflexivity.
Qed.

(* ------------------------------------------------------------------ *)
(** ** Connection selection, case by case *)

Lemma select_connection_absent w host s :
  truthy host = false ->
  select_connection w host s = (s, Normal host).
Proof.
  destruct host as [[|c h]|]; simpl; try discriminate; reflexivity.
Qed.

Lemma select_connection_passwordless w h s :
  h <> [] ->
  passwordless w (pw_name w) h = true ->
  select_connection w (Some h) s
  = ({| self := with_flag (self s);
        trace := trace s ++ [EProbe (pw_name w) h] |}, Normal (Some h)).
Proof.
  intros Hh Hp. destruct h as [|c h]; [congruence|].
  unfold select_connection, bind, tell. rewrite Hp. reflexivity.
Qed.

Lemma select_connection_malformed w h s :
  h <> [] ->
  passwordless w (pw_name w) h = false ->
  Re.search (Pattern.host_url w) h = None ->
  select_connection w (Some h) s
  = (ran s (EProbe (pw_name w) h), Raised invalid_host_url).
Proof.
  intros Hh Hp Hs. destruct h as [|c h]; [congruence|].
  unfold select_connection, bind, tell. rewrite Hp, Hs. reflexivity.
Qed.

Lemma select_connection_session w h s groups :
  h <> [] ->
  passwordless w (pw_name w) h = false ->
  Re.search (Pattern.host_url w) h = Some groups ->
  select_connection w (Some h) s
  = let c := channel_of groups in
    match ssh_open w c with
    | Some err =>
        ({| self := self s;
            trace := (trace s ++ [EProbe (pw_name w) h]) ++ [EConnect c] |},
         Raised (VError EINVAL
                   (lit "Failed to create ssh connection to " ++ ch_host c
                      ++ lit ", Error: " ++ err)))
    | None =>
        ({| self := with_session (self s) c;
            trace := (trace s ++ [EProbe (pw_name w) h]) ++ [EConnect c] |},
         Normal (Some (ch_host c)))
    end.
Proof.
  intros Hh Hp Hs. destruct h as [|x h]; [congruence|].
  destruct (host_url_groups _ _ _ Hs) as (u & p & h' & port & ->).
  unfold select_connection, bind, tell. rewrite Hp, Hs. simpl.
  destruct (ssh_open w _); reflexivity.
Qed.

(** Connection selection runs no command and never disconnects; it
    neither returns from [validate] nor leaves the model. *)
Lemma select_connection_trace w host s :
  exists evs,
    trace (fst (select_connection w host s)) = trace s ++ evs
    /\ commands evs = []
    /\ existsb is_disconnect evs = false.
Proof.
  destruct (truthy host) eqn:Ht.
  - destruct host as [[|c0 h0]|]; try discriminate.
    set (h := c0 :: h0). assert (Hh : h <> []) by discriminate.
    destruct (passwordless w (pw_name w) h) eqn:Hp.
    + rewrite (select_connection_passwordless _ _ _ Hh Hp).
      eexists. split; [reflexivity | split; reflexivity].
    + destruct (Re.search (Pattern.host_url w) h) as [g|] eqn:Hs.
      * rewrite (select_connection_session _ _ _ _ Hh Hp Hs). simpl.
        exists [EProbe (pw_name w) h; EConnect (channel_of g)].
        destruct (ssh_open w (channel_of g)); simpl;
          rewrite <- app_assoc; split; [reflexivity | split; reflexivity
                                       | reflexivity | split; reflexivity].
      * rewrite (select_connection_malformed _ _ _ Hh Hp Hs).
        eexists. split; [reflexivity | split; reflexivity].
  - rewrite (select_connection_absent _ _ _ Ht).
    exists []. rewrite app_nil_r. split; [reflexivity | split; reflexivity].
Qed.

Lemma select_connection_completion w host s :
  snd (select_connection w host s) <> Returned.
Proof.
  destruct (truthy host) eqn:Ht.
  - destruct host as [[|c0 h0]|]; try discriminate.
    set (h := c0 :: h0). assert (Hh : h <> []) by discriminate.
    destruct (passwordless w (pw_name w) h) eqn:Hp.
    + rewrite (select_connection_passwordless _ _ _ Hh Hp).
      discriminate.
    + destruct (Re.search (Pattern.host_url w) h) as [g|] eqn:Hs.
      * rewrite (select_connection_session _ _ _ _ Hh Hp Hs). simpl.
        destruct (ssh_open w (channel_of g)); discriminate.
      * rewrite (select_connection_malformed _ _ _ Hh Hp Hs).
        discriminate.
  - rewrite (select_connection_absent _ _ _ Ht). discriminate.
Qed.

Lemma commands_app a b : commands (a ++ b) = commands a ++ commands b.
Proof.
  induction a as [|e a IH]; simpl; [reflexivity|].
  destruct e; simpl; rewrite ?IH; reflexivity.
Qed.

(** No path through [validate] reaches [disconnect]. *)
Lemma validate_never_disconnects w v_type args host me :
  existsb is_disconnect (trace (fst (call (validate w v_type args host) me)))
  = false.
Proof.
  unfold call. rewrite validate_dispatch.
  destruct (select_connection_trace w host {| self := me; trace := [] |})
    as (evs & Ht & _ & Hd).
  destruct (select_connection w host _) as [s1 c]. simpl in Ht.
  assert (Hs1 : existsb is_disconnect (trace s1) = false)
    by (rewrite Ht; exact Hd).
  assert (Hk : forall k,
             existsb is_disconnect
               (trace (fst (validate_pkgs k w (match c with
                                               | Normal h => h
                                               | _ => None
                                               end) args true s1))) = false).
  { intros k. rewrite validate_pkgs_run. simpl.
    rewrite existsb_app, Hs1. unfold exec_event.
    destruct (ssh (self s1)); reflexivity. }
  destruct c as [h| |]; simpl; try exact Hs1.
  destruct (str_eqb v_type (lit "rpms")); [apply Hk|].
  destruct (str_eqb v_type (lit "pip3s")); [apply Hk | exact Hs1].
Qed.

(* ------------------------------------------------------------------ *)
(** ** Command execution *)



(* ------------------------------------------------------------------ *)
(** ** The host string *)

(** C3, as the code has it.  With a host given and the probe failing: when
    [re.search] finds the pattern nowhere in the host string, [validate]
    raises the invalid-host-format VError with only the probe in its trace,
    so before any command; when it finds the pattern anywhere, the match has
    four groups and the session is opened from them. *)
Theorem host_without_match_rejected
    (w : World) (me : PkgV) (v_type : str) (args : Targets) (h : str) :
  h <> [] ->
  passwordless w (pw_name w) h = false ->
  (Re.search (Pattern.host_url w) h = None ->
   call (validate w v_type args (Some h)) me
   = ({| self := me; trace := [EProbe (pw_name w) h] |},
      Raised (VError EINVAL (lit
        "Invalid host_url format is given for passwordless ssh not configured host."))))
  /\ (forall groups,
         Re.search (Pattern.host_url w) h = Some groups ->
         exists user passwd host port rest,
           groups = [user; passwd; host; port]
           /\ trace (fst (call (validate w v_type args (Some h)) me))
              = EProbe (pw_name w) h
                  :: EConnect {| ch_host := host; ch_username := user;
                                 ch_password := passwd; ch_port := port |}
                  :: rest)
  /\ (exact_host_shape w h = true ->
      Re.search (Pattern.host_url w) h <> None).
Proof.
  intros Hh Hp. split; [|split].
  - intros Hs. unfold call. rewrite validate_dispatch.
    rewrite (select_connection_malformed _ _ _ Hh Hp Hs). reflexivity.
  - intros groups Hs.
    destruct (host_url_groups _ _ _ Hs) as (u & p & h' & port & ->).
    unfold call. rewrite validate_dispatch.
    rewrite (select_connection_session _ _ _ _ Hh Hp Hs). simpl.
    exists u, p, h', port.
    unfold channel_of. simpl.
    destruct (ssh_open w _).
    + exists []. split; reflexivity.
    + destruct (str_eqb v_type (lit "rpms")).
      * rewrite validate_pkgs_run. simpl. eexists. split; reflexivity.
      * destruct (str_eqb v_type (lit "pip3s")).
        -- rewrite validate_pkgs_run. simpl. eexists. split; reflexivity.
        -- exists []. split; reflexivity.
  - apply ReFacts.accepts_search.
Qed.

Lemma host_without_match_rejected_witness :
  call (validate (Sample.world false) (lit "rpms") (Plain [Sample.bash])
          (Some (lit "node1"))) __init__
  = ({| self := __init__; trace := [EProbe (lit "root") (lit "node1")] |},
     Raised (VError EINVAL (lit
       "Invalid host_url format is given for passwordless ssh not configured host."))).
Proof.
  apply (proj1 (host_without_match_rejected (Sample.world false) __init__
                  (lit "rpms") (Plain [Sample.bash]) (lit "node1")
                  ltac:(discriminate) eq_refl)).
  reflexivity.
Defined.

(** C3 as stated fails: a host string that is not of the exact shape, the
    port being followed by more text, is not rejected; the session is
    opened from the part that matches and the command runs on it. *)
Lemma inexact_host_accepted :
  exact_host_shape (Sample.world false) (lit "admin:s3cret@node1:22/tmp")
  = false
  /\ passwordless (Sample.world false) (pw_name (Sample.world false))
       (lit "admin:s3cret@node1:22/tmp") = false
  /\ call (validate (Sample.world false) (lit "rpms") (Plain [Sample.bash])
             (Some (lit "admin:s3cret@node1:22/tmp"))) __init__
     = ({| self := Sample.in_session;
           trace := [EProbe (lit "root") (lit "admin:s3cret@node1:22/tmp");
                     EConnect Sample.node;
                     ESshExec Sample.node (lit "rpm -qa")] |},
        Normal tt).
Proof.
  split; [|split]; reflexivity.
Qed.

(* ------------------------------------------------------------------ *)
(** ** Unsupported kinds *)

(** C8, as the code has it.  For a kind tag other than "rpms" and "pip3s"
    no command is executed.  Connection selection comes first: when it
    completes, [validate] raises the VError that names the tag; when it
    raises (the host string has no match, the session cannot be opened),
    that error is the one [validate] raises. *)
Theorem unsupported_kind_rejected
    (w : World) (me : PkgV) (v_type : str) (args : Targets)
    (host : option str) :
  v_type <> lit "rpms" ->
  v_type <> lit "pip3s" ->
  commands (trace (fst (call (validate w v_type args host) me))) = []
  /\ (forall s1 h,
         call (select_connection w host) me = (s1, Normal h) ->
         call (validate w v_type args host) me
         = (s1, Raised (VError EINVAL
                          (lit "Action parameter " ++ v_type
                             ++ lit " not supported"))))
  /\ (forall s1 e,
         call (select_connection w host) me = (s1, Raised e) ->
         call (validate w v_type args host) me = (s1, Raised e)).
Proof.
  intros Hr Hp. apply str_eqb_neq in Hr. apply str_eqb_neq in Hp.
  unfold call. rewrite validate_dispatch, Hr, Hp.
  split; [|split].
  - destruct (select_connection_trace w host {| self := me; trace := [] |})
      as (evs & Ht & Hc & _).
    destruct (select_connection w host _) as [s1 c]. simpl in Ht.
    destruct c; simpl; rewrite Ht; exact Hc.
  - intros s1 h ->. reflexivity.
  - intros s1 e ->. reflexivity.
Qed.

Lemma unsupported_kind_rejected_witness :
  commands (trace (fst (call (validate (Sample.world false) (lit "debs")
                                (Plain [Sample.bash]) None) __init__))) = []
  /\ call (validate (Sample.world false) (lit "debs")
             (Plain [Sample.bash]) None) __init__
     = ({| self := __init__; trace := [] |},
        Raised (VError EINVAL (lit "Action parameter debs not supported"))).
Proof.
  destruct (unsupported_kind_rejected (Sample.world false) __init__
              (lit "debs") (Plain [Sample.bash]) None
              ltac:(discriminate) ltac:(discriminate)) as (Hc & Hn & _).
  split; [exact Hc|].
  apply (Hn {| self := __init__; trace := [] |} None). reflexivity.
Defined.

(** C8 as stated fails: with a host whose string has no match and no
    passwordless ssh, an unsupported tag is never looked at; the error is
    the invalid-host-format one. *)
Lemma unsupported_kind_after_bad_host :
  lit "debs" <> lit "rpms" /\ lit "debs" <> lit "pip3s"
  /\ snd (call (validate (Sample.world false) (lit "debs")
                  (Plain [Sample.bash]) (Some (lit "node1"))) __init__)
     = Raised invalid_host_url
  /\ invalid_host_url
     <> VError EINVAL (lit "Action parameter debs not supported").
Proof.
  repeat split; try discriminate; reflexivity.
Qed.

(* ------------------------------------------------------------------ *)
(** ** One call on a fresh instance, and calls on a used one *)




(** A call with no host writes neither connection field. *)
Lemma no_host_keeps_fields w v_type args host me :
  truthy host = false ->
  self (fst (call (validate w v_type args host) me)) = me.
Proof.
  intros Ht. unfold call. rewrite validate_dispatch.
  rewrite (select_connection_absent _ _ _ Ht).
  destruct (str_eqb v_type (lit "rpms"));
    [rewrite validate_pkgs_run; reflexivity|].
  destruct (str_eqb v_type (lit "pip3s"));
    [rewrite validate_pkgs_run; reflexivity | reflexivity].
Qed.

(** C2 at a call that opens a session and succeeds: the call ends with
    the session still held and no disconnect in its trace. *)
Theorem session_not_disconnected :
  call (validate (Sample.world false) (lit "rpms") (Plain [Sample.bash])
          (Some (lit "admin:s3cret@node1:22"))) __init__
  = ({| self := {| passwdless_ssh_enabled := false; ssh := Some Sample.node |};
        trace := [EProbe (lit "root") (lit "admin:s3cret@node1:22");
                  EConnect Sample.node;
                  ESshExec Sample.node (lit "rpm -qa")] |},
     Normal tt)
  /\ existsb is_disconnect
       (trace (fst (call (validate (Sample.world false) (lit "rpms")
                            (Plain [Sample.bash])
                            (Some (lit "admin:s3cret@node1:22"))) __init__)))
     = false.
Proof.
  split; reflexivity.
Qed.

(** C9 at two calls on one instance: the fields a first call set are
    still there in a later call with no host, which then runs its command
    on the old session, or wrapped for the old host variable, and leaves
    the fields as it found them. *)
Theorem connection_state_survives_calls :
  after_session = {| passwdless_ssh_enabled := false; ssh := Some Sample.node |}
  /\ call (validate (Sample.world false) (lit "pip3s")
             (Plain [Sample.requests]) None) after_session
     = ({| self := after_session;
           trace := [ESshExec Sample.node (lit "pip3 list")] |}, Normal tt)
  /\ call (validate (Sample.world true) (lit "pip3s")
             (Plain [Sample.requests]) None) after_keys
     = ({| self := after_keys;
           trace := [ELocalRun (lit "ssh None pip3 list")] |}, Normal tt).
Proof.
  split; [|split]; reflexivity.
Qed.

(* ------------------------------------------------------------------ *)
(** ** How the matcher steps *)

Module ReSteps.
Import Re.

Lemma pushall_none a : pushall a None = None.
Proof. induction a as [|x a IH]; simpl; [reflexivity | exact IH]. Qed.

Lemma pushall_some a acc : pushall a (Some acc) = Some (rev a ++ acc).
Proof.
  revert acc; induction a as [|x a IH]; intros acc; simpl; [reflexivity|].
  unfold pushall in IH. rewrite IH, <- app_assoc. reflexivity.
Qed.

Lemma step_lit c r x s cur caps :
  match_here (Lit c :: r) (x :: s) cur caps
  = if x =? c then match_here r s (push x cur) caps else None.
Proof. reflexivity. Qed.

Lemma step_class p r x s cur caps :
  match_here (Class p :: r) (x :: s) cur caps
  = if p x then match_here r s (push x cur) caps else None.
Proof. reflexivity. Qed.

Lemma step_open r s cur caps :
  match_here (GOpen :: r) s cur caps = match_here r s (Some []) caps.
Proof. reflexivity. Qed.

Lemma step_close r s cur caps :
  match_here (GClose :: r) s cur caps = match_here r s None (close cur caps).
Proof. reflexivity. Qed.

Lemma step_star_nil p r cur caps :
  match_here (Star p :: r) [] cur caps = match_here r [] cur caps.
Proof. reflexivity. Qed.

Lemma step_star_cons p r x s cur caps :
  match_here (Star p :: r) (x :: s) cur caps
  = if p x then
      match match_here (Star p :: r) s (push x cur) caps with
      | Some g => Some g
      | None => match_here r (x :: s) cur caps
      end
    else match_here r (x :: s) cur caps.
Proof. reflexivity. Qed.

(** A run of literals consumes exactly its own text. *)
Lemma lits_inv name tl :
  forall s cur caps g,
    match_here (List.map Lit name ++ tl) s cur caps = Some g ->
    exists s', s = name ++ s'
               /\ match_here tl s' (pushall name cur) caps = Some g.
Proof.
  induction name as [|c name IH]; intros s cur caps g Hm.
  - exists s. split; [reflexivity | exact Hm].
  - simpl List.map in Hm. simpl app in Hm.
    destruct s as [|x s]; [discriminate|].
    rewrite step_lit in Hm. destruct (x =? c) eqn:E; [|discriminate].
    apply N.eqb_eq in E. subst x.
    destruct (IH _ _ _ _ Hm) as (s' & -> & Hm').
    exists s'. split; [reflexivity | exact Hm'].
Qed.

(** A greedy repetition consumes a run of the class and hands the rest to
    what follows. *)
Lemma star_inv p r :
  forall s cur caps g,
    match_here (Star p :: r) s cur caps = Some g ->
    exists a b, s = a ++ b /\ forallb p a = true
                /\ match_here r b (pushall a cur) caps = Some g.
Proof.
  induction s as [|x s IH]; intros cur caps g Hm.
  - rewrite step_star_nil in Hm. exists [], []. repeat split. exact Hm.
  - rewrite step_star_cons in Hm. destruct (p x) eqn:Ep.
    + destruct (match_here (Star p :: r) s (push x cur) caps) as [g'|] eqn:E.
      * inversion Hm; subst g'.
        destruct (IH _ _ _ E) as (a & b & -> & Ha & Hb).
        exists (x :: a), b. simpl. rewrite Ep, Ha. repeat split. exact Hb.
      * exists [], (x :: s). repeat split. exact Hm.
    + exists [], (x :: s). repeat split. exact Hm.
Qed.

(** The repetition goes through a run of the class when the match it
    reaches behind the run succeeds. *)
Lemma star_reach p r a :
  forall b cur caps g,
    forallb p a = true ->
    match_here (Star p :: r) b (pushall a cur) caps = Some g ->
    match_here (Star p :: r) (a ++ b) cur caps = Some g.
Proof.
  induction a as [|x a IH]; intros b cur caps g Ha Hm; [exact Hm|].
  simpl in Ha. apply andb_true_iff in Ha. destruct Ha as [Ex Ha].
  simpl app. rewrite step_star_cons, Ex.
  rewrite (IH b (push x cur) caps g Ha Hm). reflexivity.
Qed.

(** When what follows fails at every later position, the repetition
    gives back all it took. *)
Lemma star_fallback p r :
  forall s cur caps,
    (forall x y, s = x ++ y -> x <> [] ->
                 match_here r y (pushall x cur) caps = None) ->
    match_here (Star p :: r) s cur caps = match_here r s cur caps.
Proof.
  induction s as [|c s IH]; intros cur caps Hn; [reflexivity|].
  rewrite step_star_cons. destruct (p c); [|reflexivity].
  rewrite IH.
  - pose proof (Hn [c] s eq_refl ltac:(discriminate)) as H0.
    simpl in H0. rewrite H0. reflexivity.
  - intros x y -> Hx. apply (Hn (c :: x) y eq_refl). discriminate.
Qed.

Lemma search_inv its :
  forall s g,
    search its s = Some g ->
    exists pre suf, s = pre ++ suf /\ match_here its suf None [] = Some g.
Proof.
  induction s as [|x s IH]; intros g Hs; simpl in Hs.
  - destruct (match_here its [] None []) eqn:E; [|discriminate].
    exists [], []. split; [reflexivity | congruence].
  - destruct (match_here its (x :: s) None []) eqn:E.
    + exists [], (x :: s). split; [reflexivity | congruence].
    + destruct (IH _ Hs) as (pre & suf & -> & Hm).
      exists (x :: pre), suf. split; [reflexivity | exact Hm].
Qed.

Lemma search_head its s g :
  match_here its s None [] = Some g -> search its s = Some g.
Proof.
  intros Hm. destruct s; simpl; rewrite Hm; reflexivity.
Qed.

End ReSteps.

(* ------------------------------------------------------------------ *)
(** ** What the version patterns capture *)

Lemma rpm_version_items pkg its :
  Pattern.rpm_version pkg = Some its ->
  its = List.map Re.Lit pkg
          ++ [Re.Lit (Re.ch "-"); Re.GOpen; Re.Class Re.not_hyphen;
              Re.Class Re.digit_or_dot; Re.Star Re.digit_or_dot;
              Re.GClose; Re.Lit (Re.ch "-")].
Proof.
  unfold Pattern.rpm_version, Re.literal.
  destruct (existsb Re.special pkg); simpl; [discriminate|].
  intros H; inversion H; reflexivity.
Qed.

Lemma pip3_version_items pkg its :
  Pattern.pip3_version pkg = Some its ->
  its = List.map Re.Lit pkg
          ++ [Re.Lit (Re.ch " "); Re.Lit (Re.ch "("); Re.GOpen;
              Re.Star Re.dot; Re.GClose; Re.Lit (Re.ch ")")].
Proof.
  unfold Pattern.pip3_version, Re.literal.
  destruct (existsb Re.special pkg); simpl; [discriminate|].
  intros H; inversion H; reflexivity.
Qed.

(** A match of the rpm pattern at the head of a text: the name, a hyphen,
    the group, a hyphen. *)
Lemma rpm_match_here_shape pkg its suf v rest :
  Pattern.rpm_version pkg = Some its ->
  Re.match_here its suf None [] = Some (v :: rest) ->
  exists c d ds b,
    v = c :: d :: ds
    /\ Re.not_hyphen c = true
    /\ Re.digit_or_dot d = true
    /\ forallb Re.digit_or_dot ds = true
    /\ suf = pkg ++ Re.ch "-" :: c :: d :: ds ++ Re.ch "-" :: b.
Proof.
  intros Hp Hm. apply rpm_version_items in Hp. subst its.
  apply ReSteps.lits_inv in Hm. destruct Hm as (s0 & -> & Hm).
  rewrite ReSteps.pushall_none in Hm.
  destruct s0 as [|x s1]; [discriminate|].
  rewrite ReSteps.step_lit in Hm.
  destruct (x =? Re.ch "-") eqn:Ex; [|discriminate].
  apply N.eqb_eq in Ex. subst x.
  rewrite ReSteps.step_open in Hm.
  destruct s1 as [|c s2]; [discriminate|].
  rewrite ReSteps.step_class in Hm.
  destruct (Re.not_hyphen c) eqn:Ec; [|discriminate].
  destruct s2 as [|d s3]; [discriminate|].
  rewrite ReSteps.step_class in Hm.
  destruct (Re.digit_or_dot d) eqn:Ed; [|discriminate].
  apply ReSteps.star_inv in Hm. destruct Hm as (ds & b & -> & Hds & Hm).
  simpl Re.push in Hm. rewrite ReSteps.pushall_some in Hm.
  rewrite ReSteps.step_close in Hm.
  destruct b as [|y b']; [discriminate|].
  rewrite ReSteps.step_lit in Hm.
  destruct (y =? Re.ch "-") eqn:Ey; [|discriminate].
  apply N.eqb_eq in Ey. subst y.
  simpl in Hm. injection Hm as Hv Hr.
  rewrite rev_app_distr, rev_involutive in Hv. simpl in Hv. subst v.
  exists c, d, ds, b'. repeat split; assumption.
Qed.

(** For a name free of special characters, the version the rpm check
    compares stands in the output between the name with a hyphen and a
    further hyphen; it is one character that is no hyphen followed by at
    least one digit or dot, so it has two characters or more. *)
Theorem rpm_version_shape (out pkg v : str) :
  plain_name pkg ->
  extracted rpm out pkg v ->
  occurs_in (pkg ++ lit "-" ++ v ++ lit "-") out
  /\ exists c d ds,
       v = c :: d :: ds
       /\ c <> Re.ch "-"
       /\ Re.digit_or_dot d = true
       /\ forallb Re.digit_or_dot ds = true.
Proof.
  intros _ (its & rest & Hp & Hs). simpl in Hp.
  apply ReSteps.search_inv in Hs. destruct Hs as (pre & suf & -> & Hm).
  destruct (rpm_match_here_shape _ _ _ _ _ Hp Hm)
    as (c & d & ds & b & -> & Ec & Ed & Hds & ->).
  split.
  - exists pre, b. simpl. repeat (rewrite <- !app_assoc; simpl). reflexivity.
  - exists c, d, ds. repeat split; try assumption.
    unfold Re.not_hyphen in Ec. apply negb_true_iff in Ec.
    apply N.eqb_neq in Ec. exact Ec.
Qed.

Lemma rpm_version_shape_witness :
  occurs_in (Sample.bash ++ lit "-" ++ lit "4.2.46" ++ lit "-")
            (lit Sample.rpm_qa)
  /\ exists c d ds,
       lit "4.2.46" = c :: d :: ds
       /\ c <> Re.ch "-"
       /\ Re.digit_or_dot d = true
       /\ forallb Re.digit_or_dot ds = true.
Proof.
  apply (rpm_version_shape (lit Sample.rpm_qa) Sample.bash (lit "4.2.46")).
  - discriminate.
  - eexists. eexists. split; [reflexivity | vm_compute; reflexivity].
Defined.

(** For a name free of special characters, the version the pip3 check
    compares stands in the output between the name with " (" and a closing
    parenthesis, on one line. *)
Theorem pip3_version_shape (out pkg v : str) :
  plain_name pkg ->
  extracted pip3 out pkg v ->
  occurs_in (pkg ++ lit " (" ++ v ++ lit ")") out
  /\ forallb Re.dot v = true.
Proof.
  intros _ (its & rest & Hp & Hs). simpl in Hp.
  apply pip3_version_items in Hp. subst its.
  apply ReSteps.search_inv in Hs. destruct Hs as (pre & suf & -> & Hm).
  apply ReSteps.lits_inv in Hm. destruct Hm as (s0 & -> & Hm).
  rewrite ReSteps.pushall_none in Hm.
  destruct s0 as [|x s1]; [discriminate|].
  rewrite ReSteps.step_lit in Hm.
  destruct (x =? Re.ch " ") eqn:Ex; [|discriminate].
  apply N.eqb_eq in Ex. subst x.
  destruct s1 as [|x s2]; [discriminate|].
  rewrite ReSteps.step_lit in Hm.
  destruct (x =? Re.ch "(") eqn:Ex; [|discriminate].
  apply N.eqb_eq in Ex. subst x.
  rewrite ReSteps.step_open in Hm.
  apply ReSteps.star_inv in Hm. destruct Hm as (ds & b & -> & Hds & Hm).
  rewrite ReSteps.pushall_some in Hm.
  rewrite ReSteps.step_close in Hm.
  destruct b as [|y b']; [discriminate|].
  rewrite ReSteps.step_lit in Hm.
  destruct (y =? Re.ch ")") eqn:Ey; [|discriminate].
  apply N.eqb_eq in Ey. subst y.
  simpl in Hm. injection Hm as Hv Hr.
  rewrite app_nil_r, rev_involutive in Hv. subst ds.
  split; [|exact Hds].
  exists pre, b'. simpl. repeat (rewrite <- !app_assoc; simpl). reflexivity.
Qed.

Lemma pip3_version_shape_witness :
  occurs_in (Sample.requests ++ lit " (" ++ lit "2.25.1" ++ lit ")")
            (lit Sample.pip3_list)
  /\ forallb Re.dot (lit "2.25.1") = true.
Proof.
  apply (pip3_version_shape (lit Sample.pip3_list) Sample.requests
           (lit "2.25.1")).
  - discriminate.
  - eexists. eexists. split; [reflexivity | vm_compute; reflexivity].
Defined.

(* ------------------------------------------------------------------ *)
(** ** Reading a host string *)

Lemma free_of_split c t x y :
  free_of c t = true -> t <> x ++ c :: y.
Proof.
  intros Hf ->. unfold free_of in Hf. rewrite forallb_app in Hf.
  apply andb_true_iff in Hf. destruct Hf as [_ Hf]. simpl in Hf.
  rewrite N.eqb_refl in Hf. discriminate.
Qed.

Lemma class_free_of (p : char -> bool) c t :
  p c = false -> forallb p t = true -> free_of c t = true.
Proof.
  intros Hc Ht. unfold free_of. apply forallb_forall. intros x Hx.
  rewrite forallb_forall in Ht. specialize (Ht x Hx).
  apply negb_true_iff. apply N.eqb_neq. intros ->. congruence.
Qed.

(** What follows a group that must start with [c] fails wherever the
    subject goes on with text free of [c]. *)
Lemma separator_absent c r t x y cur caps :
  free_of c t = true ->
  t = x ++ y ->
  Re.match_here (Re.GClose :: Re.Lit c :: r) y cur caps = None.
Proof.
  intros Hf Ht. rewrite ReSteps.step_close.
  destruct y as [|z y]; [reflexivity|].
  rewrite ReSteps.step_lit. destruct (z =? c) eqn:E; [|reflexivity].
  apply N.eqb_eq in E. subst z.
  exfalso. exact (free_of_split _ _ _ _ Hf Ht).
Qed.

(** The host pattern matches a well-formed host string from its first
    character and captures the four parts. *)
Lemma host_string_match_here (w : World) (user passwd host port : str) :
  user <> [] -> forallb (Pattern.word w) user = true ->
  passwd <> [] -> forallb Re.dot passwd = true ->
  host <> [] -> forallb Re.dot host = true ->
  free_of (Re.ch "@") host = true ->
  port <> [] -> forallb (Pattern.digit w) port = true ->
  Re.match_here (Pattern.host_url w) (host_string user passwd host port)
    None []
  = Some [user; passwd; host; port].
Proof.
  intros Hu Hw Hp Hpd Hh Hhd Hha Hd Hdd.
  destruct user as [|u0 u']; [congruence|].
  destruct passwd as [|p0 p']; [congruence|].
  destruct host as [|h0 h']; [congruence|].
  destruct port as [|d0 d']; [congruence|].
  simpl in Hw, Hpd, Hhd, Hdd.
  apply andb_true_iff in Hw. destruct Hw as [Hw0 Hw'].
  apply andb_true_iff in Hpd. destruct Hpd as [Hp0 Hp'].
  apply andb_true_iff in Hhd. destruct Hhd as [Hh0 Hh'].
  apply andb_true_iff in Hdd. destruct Hdd as [Hd0 Hd'].
  assert (Hdigits_at : free_of (Re.ch "@") (d0 :: d') = true).
  { apply (class_free_of (Pattern.digit w)); [reflexivity|].
    simpl. rewrite Hd0, Hd'. reflexivity. }
  assert (Hdigits_colon : free_of (Re.ch ":") (d0 :: d') = true).
  { apply (class_free_of (Pattern.digit w)); [reflexivity|].
    simpl. rewrite Hd0, Hd'. reflexivity. }
  assert (Htail_at :
            free_of (Re.ch "@") ((h0 :: h') ++ Re.ch ":" :: d0 :: d') = true).
  { unfold free_of. rewrite forallb_app. apply andb_true_iff.
    split; [exact Hha | exact Hdigits_at]. }
  change (host_string (u0 :: u') (p0 :: p') (h0 :: h') (d0 :: d'))
    with (u0 :: u' ++ Re.ch ":" :: p0 :: p' ++ Re.ch "@"
             :: h0 :: h' ++ Re.ch ":" :: d0 :: d').
  change (Pattern.host_url w)
    with [Re.GOpen; Re.Class (Pattern.word w); Re.Star (Pattern.word w);
          Re.GClose; Re.Lit (Re.ch ":");
          Re.GOpen; Re.Class Re.dot; Re.Star Re.dot;
          Re.GClose; Re.Lit (Re.ch "@");
          Re.GOpen; Re.Class Re.dot; Re.Star Re.dot;
          Re.GClose; Re.Lit (Re.ch ":");
          Re.GOpen; Re.Class (Pattern.digit w); Re.Star (Pattern.digit w);
          Re.GClose].
  (* the user *)
  rewrite ReSteps.step_open, ReSteps.step_class, Hw0.
  apply ReSteps.star_reach; [exact Hw'|].
  rewrite ReSteps.step_star_cons.
  replace (Pattern.word w (Re.ch ":")) with false by reflexivity.
  simpl Re.push. rewrite ReSteps.pushall_some.
  rewrite ReSteps.step_close, ReSteps.step_lit, N.eqb_refl.
  (* the password: everything up to the last at sign *)
  rewrite ReSteps.step_open, ReSteps.step_class, Hp0.
  apply ReSteps.star_reach; [exact Hp'|].
  rewrite ReSteps.star_fallback.
  2:{ intros x y Hxy Hx. destruct x as [|x0 x]; [congruence|].
      simpl in Hxy. injection Hxy as _ Hxy.
      exact (separator_absent _ _ _ _ _ _ _ Htail_at Hxy). }
  simpl Re.push. rewrite ReSteps.pushall_some.
  rewrite ReSteps.step_close, ReSteps.step_lit, N.eqb_refl.
  (* the host: everything up to the last colon *)
  rewrite ReSteps.step_open, ReSteps.step_class, Hh0.
  apply ReSteps.star_reach; [exact Hh'|].
  rewrite ReSteps.star_fallback.
  2:{ intros x y Hxy Hx. destruct x as [|x0 x]; [congruence|].
      simpl in Hxy. injection Hxy as _ Hxy.
      exact (separator_absent _ _ _ _ _ _ _ Hdigits_colon Hxy). }
  simpl Re.push. rewrite ReSteps.pushall_some.
  rewrite ReSteps.step_close, ReSteps.step_lit, N.eqb_refl.
  (* the port *)
  rewrite ReSteps.step_open, ReSteps.step_class, Hd0.
  rewrite <- (app_nil_r d').
  apply ReSteps.star_reach; [exact Hd'|].
  rewrite ReSteps.step_star_nil.
  simpl Re.push. rewrite ReSteps.pushall_some.
  rewrite ReSteps.step_close. simpl.
  rewrite !rev_app_distr, !rev_involutive. simpl.
  rewrite app_nil_r. reflexivity.
Qed.

(** A host string put together from a user of word characters, a
    password and a host on one line, the host without an at sign, and a
    port of digits, is read back into these four parts; the password may
    hold colons and at signs, the host colons. *)
Theorem host_string_parses (w : World) (user passwd host port : str) :
  user <> [] -> forallb (Pattern.word w) user = true ->
  passwd <> [] -> forallb Re.dot passwd = true ->
  host <> [] -> forallb Re.dot host = true ->
  free_of (Re.ch "@") host = true ->
  port <> [] -> forallb (Pattern.digit w) port = true ->
  Re.search (Pattern.host_url w) (host_string user passwd host port)
  = Some [user; passwd; host; port].
Proof.
  intros. apply ReSteps.search_head.
  apply host_string_match_here; assumption.
Qed.

Lemma host_string_parses_witness :
  Re.search (Pattern.host_url (Sample.world false))
    (host_string (lit "admin") (lit "p@ss:w0rd") (lit "node1") (lit "22"))
  = Some [lit "admin"; lit "p@ss:w0rd"; lit "node1"; lit "22"].
Proof.
  apply (host_string_parses (Sample.world false)
           (lit "admin") (lit "p@ss:w0rd") (lit "node1") (lit "22"));
    try discriminate; reflexivity.
Defined.

(** The second test of [if not host_details or len(...) != 4] never
    fires: a match of the host pattern always has four groups. *)
Theorem group_count_test_is_dead (w : World) (h : str) (groups : list str) :
  Re.search (Pattern.host_url w) h = Some groups ->
  negb (Nat.eqb (List.length groups) 4) = false.
Proof.
  intros Hs. destruct (host_url_groups _ _ _ Hs) as (a & b & c & d & ->).
  reflexivity.
Qed.

Lemma group_count_test_is_dead_witness :
  negb (Nat.eqb (List.length [lit "a"; lit "b"; lit "c"; lit "1"]) 4) = false.
Proof.
  apply (group_count_test_is_dead (Sample.world false) (lit "a:b@c:1")).
  reflexivity.
Defined.

(* ------------------------------------------------------------------ *)
(** ** Sessions *)

(** A per-kind validator leaves the instance as it is. *)
Lemma validate_pkgs_self k w host pkgs skip s :
  self (fst (validate_pkgs k w host pkgs skip s)) = self s.
Proof. rewrite validate_pkgs_run. reflexivity. Qed.

(** [validate] leaves the instance as connection selection left it. *)
Lemma validate_self w v_type args host s :
  self (fst (validate w v_type args host s))
  = self (fst (select_connection w host s)).
Proof.
  rewrite validate_dispatch.
  destruct (select_connection w host s) as [s1 [h| |]]; try reflexivity.
  simpl. destruct (str_eqb v_type (lit "rpms"));
    [apply validate_pkgs_self|].
  destruct (str_eqb v_type (lit "pip3s"));
    [apply validate_pkgs_self | reflexivity].
Qed.

(** With no passwordless ssh, a host string of four well-formed parts
    makes [validate] open the session to that host, with that user,
    password and port, right after the probe; the session stays in the
    instance whatever the kind tag and the targets are. *)
Theorem session_from_host_string
    (w : World) (me : PkgV) (v_type : str) (args : Targets)
    (user passwd host port : str) :
  let h := host_string user passwd host port in
  let c := {| ch_host := host; ch_username := user;
              ch_password := passwd; ch_port := port |} in
  user <> [] -> forallb (Pattern.word w) user = true ->
  passwd <> [] -> forallb Re.dot passwd = true ->
  host <> [] -> forallb Re.dot host = true ->
  free_of (Re.ch "@") host = true ->
  port <> [] -> forallb (Pattern.digit w) port = true ->
  passwordless w (pw_name w) h = false ->
  ssh_open w c = None ->
  self (fst (call (validate w v_type args (Some h)) me))
  = {| passwdless_ssh_enabled := passwdless_ssh_enabled me; ssh := Some c |}
  /\ exists rest,
       trace (fst (call (validate w v_type args (Some h)) me))
       = EProbe (pw_name w) h :: EConnect c :: rest.
Proof.
  intros h c Hu Hw Hp Hpd Hh Hhd Hha Hd Hdd Hprobe Hopen.
  pose proof (ReSteps.search_head _ _ _
                (host_string_match_here w user passwd host port
                   Hu Hw Hp Hpd Hh Hhd Hha Hd Hdd)) as Hs.
  subst h c.
  assert (Hne : host_string user passwd host port <> []).
  { unfold host_string. destruct user; [congruence | discriminate]. }
  pose proof (select_connection_session w _ {| self := me; trace := [] |}
                _ Hne Hprobe Hs) as Hsel.
  cbv zeta in Hsel. unfold channel_of in Hsel. simpl nth in Hsel.
  rewrite Hopen in Hsel.
  change (@Some (list char)) with (@Some str) in Hsel.
  split.
  - unfold call. rewrite validate_self, Hsel. reflexivity.
  - unfold call. rewrite validate_dispatch, Hsel.
    destruct (str_eqb v_type (lit "rpms")).
    + rewrite validate_pkgs_run. simpl. eexists. reflexivity.
    + destruct (str_eqb v_type (lit "pip3s")).
      * rewrite validate_pkgs_run. simpl. eexists. reflexivity.
      * exists []. reflexivity.
Qed.

Lemma session_from_host_string_witness :
  self (fst (call (validate (Sample.world false) (lit "pip3s")
                     (Plain [Sample.requests])
                     (Some (host_string (lit "admin") (lit "s3cret")
                              (lit "node1") (lit "22")))) __init__))
  = {| passwdless_ssh_enabled := false; ssh := Some Sample.node |}
  /\ exists rest,
       trace (fst (call (validate (Sample.world false) (lit "pip3s")
                           (Plain [Sample.requests])
                           (Some (host_string (lit "admin") (lit "s3cret")
                                    (lit "node1") (lit "22")))) __init__))
       = EProbe (lit "root")
           (host_string (lit "admin") (lit "s3cret") (lit "node1") (lit "22"))
           :: EConnect Sample.node :: rest.
Proof.
  apply (session_from_host_string (Sample.world false) __init__ (lit "pip3s")
           (Plain [Sample.requests])
           (lit "admin") (lit "s3cret") (lit "node1") (lit "22"));
    try discriminate; reflexivity.
Defined.

(** When the session cannot be opened, [validate] raises the VError that
    names the host of the match and carries the traceback; no command has
    run and the instance is as it was. *)
Theorem connection_failure_reported
    (w : World) (me : PkgV) (v_type : str) (args : Targets)
    (h : str) (groups : list str) (err : str) :
  h <> [] ->
  passwordless w (pw_name w) h = false ->
  Re.search (Pattern.host_url w) h = Some groups ->
  ssh_open w (channel_of groups) = Some err ->
  call (validate w v_type args (Some h)) me
  = ({| self := me;
        trace := [EProbe (pw_name w) h; EConnect (channel_of groups)] |},
     Raised (VError EINVAL
               (lit "Failed to create ssh connection to " ++ nth 2 groups []
                  ++ lit ", Error: " ++ err))).
Proof.
  intros Hne Hprobe Hs Hopen. unfold call.
  rewrite validate_dispatch.
  rewrite (select_connection_session _ _ _ _ Hne Hprobe Hs). simpl.
  rewrite Hopen. reflexivity.
Qed.

Lemma connection_failure_reported_witness :
  call (validate (refusing (lit "timed out")) (lit "rpms")
          (Plain [Sample.bash]) (Some (lit "admin:s3cret@node1:22")))
       __init__
  = ({| self := __init__;
        trace := [EProbe (lit "root") (lit "admin:s3cret@node1:22");
                  EConnect Sample.node] |},
     Raised (VError EINVAL (lit
       "Failed to create ssh connection to node1, Error: timed out"))).
Proof.
  apply (connection_failure_reported (refusing (lit "timed out")) __init__
           (lit "rpms") (Plain [Sample.bash]) (lit "admin:s3cret@node1:22")
           [lit "admin"; lit "s3cret"; lit "node1"; lit "22"]
           (lit "timed out"));
    try discriminate; reflexivity.
Defined.


(** No [validate] call runs more than one command. *)
Theorem at_most_one_command
    (w : World) (me : PkgV) (v_type : str) (args : Targets)
    (host : option str) :
  (List.length (commands (trace (fst (call (validate w v_type args host) me))))
   <= 1)%nat.
Proof.
  unfold call. rewrite validate_dispatch.
  destruct (select_connection_trace w host {| self := me; trace := [] |})
    as (evs & Ht & Hc & _).
  destruct (select_connection w host _) as [s1 c]. simpl in Ht.
  assert (Hs1 : commands (trace s1) = []) by (rewrite Ht; exact Hc).
  assert (Hk : forall k h,
             (List.length
                (commands (trace (fst (validate_pkgs k w h args true s1))))
              <= 1)%nat).
  { intros k h. rewrite validate_pkgs_run. simpl.
    rewrite commands_app, Hs1. unfold exec_event.
    destruct (ssh (self s1)); simpl; lia. }
  destruct c as [h| |]; simpl; try (rewrite Hs1; simpl; lia).
  destruct (str_eqb v_type (lit "rpms")); [apply Hk|].
  destruct (str_eqb v_type (lit "pip3s")); [apply Hk|].
  simpl. rewrite Hs1. simpl. lia.
Qed.

(* ------------------------------------------------------------------ *)
(** ** What a validator call does and when it succeeds *)

Lemma verdict_skipped w k pkgs out pkg :
  verdict w k pkgs true out pkg = Normal tt <-> occurs_in pkg out.
Proof.
  unfold verdict. simpl. split.
  - intros H. apply find_hit. destruct (find out pkg =? -1)%Z;
      [discriminate | reflexivity].
  - intros H. apply find_hit in H. rewrite H. reflexivity.
Qed.

(** For a name free of special characters the matcher of this file runs
    the version pattern. *)
Lemma plain_pattern t pkg :
  plain_name pkg -> exists its, version_pattern (kind t) pkg = Some its.
Proof.
  unfold plain_name. intros Hp.
  destruct t; simpl; unfold Pattern.rpm_version, Pattern.pip3_version;
    destruct (Re.literal pkg); try congruence; eexists; reflexivity.
Qed.

Lemma verdict_checked w t d out pkg :
  plain_name pkg ->
  verdict w (kind t) (Versioned d) false out pkg = Normal tt ->
  passes (kind t) (Versioned d) false out pkg.
Proof.
  intros Hplain. destruct (plain_pattern t pkg Hplain) as (its & Ep).
  unfold verdict, searched. simpl. rewrite Ep.
  destruct (find out pkg =? -1)%Z eqn:Ef; [discriminate|].
  destruct (Re.search its out) as [[|v rest]|] eqn:Es; try discriminate.
  simpl.
  destruct (dict_get d pkg) as [e|] eqn:Ed; [|discriminate].
  destruct (str_eqb v e) eqn:Ee; [|discriminate].
  intros _. apply str_eqb_eq in Ee. subst e.
  split; [apply find_hit; exact Ef|].
  right. exists d, v. split; [reflexivity|]. split; [|exact Ed].
  exists its, rest. split; assumption.
Qed.

Lemma first_stop_normal w k pkgs skip out l :
  first_stop w k pkgs skip out l = Normal tt ->
  Forall (fun pkg => verdict w k pkgs skip out pkg = Normal tt) l.
Proof.
  induction l as [|pkg l IH]; simpl; [constructor|].
  destruct (verdict w k pkgs skip out pkg) as [[]| |] eqn:E;
    try discriminate.
  intros H. constructor; [exact E | exact (IH H)].
Qed.

(** A per-kind validator runs exactly one command, on the session when
    the instance holds one and as a local process otherwise, and leaves the
    instance as it was; this holds whatever the targets are and however
    the call ends. *)
Theorem validator_runs_one_command
    (t : Tag) (w : World) (me : PkgV) (host : option str) (pkgs : Targets)
    (skip_version_check : bool) :
  let cmd :=
    if passwdless_ssh_enabled me
    then lit "ssh " ++ fmt_host host ++ lit " " ++ base_cmd (kind t)
    else base_cmd (kind t) in
  fst (call (validator t w host pkgs skip_version_check) me)
  = {| self := me;
       trace := [match ssh me with
                 | Some c => ESshExec c cmd
                 | None => ELocalRun cmd
                 end] |}.
Proof.
  intros cmd. rewrite validator_kind. unfold call.
  rewrite validate_pkgs_run. reflexivity.
Qed.

(** When the command fails, the validator raises what [__execute_cmd]
    raised and looks at no package: the outcome is the same for every
    target list, the empty one included. *)
Theorem command_failure_precedes_checks
    (t : Tag) (w : World) (me : PkgV) (host : option str) (pkgs : Targets)
    (skip_version_check : bool) (e : Exn) :
  snd (call (__execute_cmd w (command_line me host (base_cmd (kind t)))) me)
  = Raised e ->
  snd (call (validator t w host pkgs skip_version_check) me) = Raised e.
Proof.
  unfold call. rewrite execute_cmd_run. simpl. intros He.
  rewrite validator_kind, validate_pkgs_run. simpl. rewrite He. reflexivity.
Qed.

Lemma command_failure_precedes_checks_witness :
  snd (call (validator Rpms (Sample.failing (ascii_bytes "no rpm")) None
               (Plain []) true) __init__)
  = Raised (VError EINVAL (lit
      "Command failure. cmd: rpm -qa stderr: no rpm")).
Proof.
  apply (command_failure_precedes_checks Rpms
           (Sample.failing (ascii_bytes "no rpm")) __init__ None (Plain [])
           true).
  reflexivity.
Defined.

(** With version checking off, a validator whose command returned [out]
    succeeds exactly when every requested name occurs in [out]; the order
    of the names and their repetition do not matter for success. *)
Theorem skipped_check_succeeds_iff
    (t : Tag) (w : World) (me : PkgV) (host : option str) (pkgs : Targets)
    (skip_version_check : bool) (out : str) :
  output_of w me (command_line me host (base_cmd (kind t))) out ->
  skipping pkgs skip_version_check = true ->
  (snd (call (validator t w host pkgs skip_version_check) me) = Normal tt
   <-> Forall (fun pkg => occurs_in pkg out) (iter pkgs)).
Proof.
  intros Ho Hsk. rewrite (validator_result _ _ _ _ _ _ _ Ho), Hsk. split.
  - intros H. apply first_stop_normal in H.
    eapply Forall_impl; [|exact H].
    intros pkg Hp. apply verdict_skipped in Hp. exact Hp.
  - intros H. rewrite <- Hsk. apply first_stop_pass.
    eapply Forall_impl; [|exact H].
    intros pkg Hp. split; [exact Hp | left; exact Hsk].
Qed.

Lemma skipped_check_succeeds_iff_witness :
  snd (call (validator Pip3s (Sample.world false) None
               (Versioned [(Sample.six, lit "9.9"); (Sample.requests, lit "0")])
               true) __init__) = Normal tt
  <-> Forall (fun pkg => occurs_in pkg (lit Sample.pip3_list))
        [Sample.six; Sample.requests].
Proof.
  apply (skipped_check_succeeds_iff Pip3s (Sample.world false) __init__ None
           (Versioned [(Sample.six, lit "9.9"); (Sample.requests, lit "0")])
           true (lit Sample.pip3_list)); reflexivity.
Defined.

(** With version checking on and names free of pattern characters, a
    validator whose command returned [out] succeeds exactly when every name
    of the dict occurs in [out] and the version its pattern extracts is the
    one the dict expects. *)
Theorem version_check_succeeds_iff
    (t : Tag) (w : World) (me : PkgV) (host : option str)
    (d : list (str * str)) (out : str) :
  output_of w me (command_line me host (base_cmd (kind t))) out ->
  Forall plain_name (List.map fst d) ->
  (snd (call (validator t w host (Versioned d) false) me) = Normal tt
   <-> Forall (passes (kind t) (Versioned d) false out) (List.map fst d)).
Proof.
  intros Ho Hplain. rewrite (validator_result _ _ _ _ _ _ _ Ho). simpl.
  split.
  - intros H. apply first_stop_normal in H.
    rewrite Forall_forall in *. intros pkg Hin.
    apply (verdict_checked w); [exact (Hplain pkg Hin) | exact (H pkg Hin)].
  - intros H. apply (first_stop_pass _ _ _ false). exact H.
Qed.

Lemma version_check_succeeds_iff_witness :
  snd (call (validator Rpms (Sample.world false) None
               (Versioned [(Sample.curl, lit "7.29.0")]) false) __init__)
  = Normal tt
  <-> Forall (passes rpm (Versioned [(Sample.curl, lit "7.29.0")]) false
                (lit Sample.rpm_qa)) [Sample.curl].
Proof.
  apply (version_check_succeeds_iff Rpms (Sample.world false) __init__ None
           [(Sample.curl, lit "7.29.0")] (lit Sample.rpm_qa)).
  - reflexivity.
  - repeat constructor. discriminate.
Defined.

Lemma exec_result_not_returned w me cmd :
  exec_result w me cmd <> Returned.
Proof.
  unfold exec_result. destruct (ssh me).
  - destruct (ssh_execute w s cmd) as [rc out].
    destruct (rc =? 0)%Z; discriminate.
  - destruct (process_run w cmd) as [[so se] rc].
    destruct (decode_utf8 _); [|discriminate].
    destruct (rc =? 0)%Z; discriminate.
Qed.

(** An expected rpm version of fewer than two characters never passes:
    the rpm version check on a dict that holds one for a requested name
    cannot succeed, whatever the command prints. *)
Theorem short_rpm_version_never_passes
    (w : World) (me : PkgV) (host : option str) (d : list (str * str))
    (pkg expected : str) :
  Forall plain_name (List.map fst d) ->
  In pkg (List.map fst d) ->
  dict_get d pkg = Some expected ->
  (List.length expected < 2)%nat ->
  snd (call (validate_rpm_pkgs w host (Versioned d) false) me) <> Normal tt.
Proof.
  intros Hplain Hin Hd Hlen Hok.
  rewrite validate_rpm_pkgs_kind in Hok. unfold call in Hok.
  rewrite validate_pkgs_run in Hok. simpl in Hok.
  destruct (exec_result w me _) as [out| |] eqn:Ex; try discriminate;
    [|exact (exec_result_not_returned _ _ _ Ex)].
  apply first_stop_normal in Hok. rewrite Forall_forall in Hok.
  specialize (Hok pkg Hin).
  rewrite Forall_forall in Hplain.
  apply (verdict_checked w Rpms _ _ _ (Hplain pkg Hin)) in Hok.
  destruct Hok as [_ [Hsk | (d' & v & Hd' & (its & rest & Hp & Hs) & Hg)]];
    [discriminate|].
  injection Hd' as <-. rewrite Hd in Hg. injection Hg as ->.
  apply ReSteps.search_inv in Hs. destruct Hs as (pre & suf & _ & Hm).
  destruct (rpm_match_here_shape _ _ _ _ _ Hp Hm)
    as (c & x & ds & b & -> & _).
  simpl in Hlen. lia.
Qed.

Lemma short_rpm_version_never_passes_witness :
  snd (call (validate_rpm_pkgs (Sample.world false) None
               (Versioned [(Sample.bash, lit "4")]) false) __init__)
  <> Normal tt.
Proof.
  apply (short_rpm_version_never_passes (Sample.world false) __init__ None
           [(Sample.bash, lit "4")] Sample.bash (lit "4")).
  - repeat constructor. discriminate.
  - left. reflexivity.
  - reflexivity.
  - simpl. lia.
Defined.

(* ------------------------------------------------------------------ *)
(** ** Greedy and leftmost *)

Lemma pushall_app a x cur : pushall (a ++ x) cur = pushall x (pushall a cur).
Proof. unfold pushall. apply fold_left_app. Qed.

(** The repetition succeeds when what follows succeeds behind some run
    of the class. *)
Lemma star_finds p r y caps :
  forall x cu,
    forallb p x = true ->
    Re.match_here r y (pushall x cu) caps <> None ->
    Re.match_here (Re.Star p :: r) (x ++ y) cu caps <> None.
Proof.
  induction x as [|z x IHx]; intros cu Hpx Hy.
  - change ([] ++ y) with y. change (pushall [] cu) with cu in Hy.
    destruct y as [|y0 y].
    + rewrite ReSteps.step_star_nil. exact Hy.
    + rewrite ReSteps.step_star_cons. destruct (p y0); [|exact Hy].
      destruct (Re.match_here (Re.Star p :: r) y _ caps);
        [discriminate | exact Hy].
  - simpl forallb in Hpx. apply andb_true_iff in Hpx.
    destruct Hpx as [Hz Hpx].
    change ((z :: x) ++ y) with (z :: x ++ y).
    rewrite ReSteps.step_star_cons, Hz.
    change (pushall (z :: x) cu) with (pushall x (Re.push z cu)) in Hy.
    specialize (IHx (Re.push z cu) Hpx Hy).
    destruct (Re.match_here (Re.Star p :: r) (x ++ y) _ caps);
      [discriminate | congruence].
Qed.

(** The repetition stops at the longest run behind which what follows
    succeeds. *)
Lemma star_inv_longest p r :
  forall s cur caps g,
    Re.match_here (Re.Star p :: r) s cur caps = Some g ->
    exists a b,
      s = a ++ b /\ forallb p a = true
      /\ Re.match_here r b (pushall a cur) caps = Some g
      /\ forall x y, b = x ++ y -> x <> [] -> forallb p x = true ->
                     Re.match_here r y (pushall (a ++ x) cur) caps = None.
Proof.
  induction s as [|c s IH]; intros cur caps g Hm.
  - rewrite ReSteps.step_star_nil in Hm. exists [], [].
    repeat split; [exact Hm|].
    intros x y Hxy Hx. destruct x; [congruence | discriminate].
  - rewrite ReSteps.step_star_cons in Hm. destruct (p c) eqn:Ep.
    + destruct (Re.match_here (Re.Star p :: r) s (Re.push c cur) caps)
        as [g'|] eqn:E.
      * injection Hm as <-.
        destruct (IH _ _ _ E) as (a & b & -> & Ha & Hb & Hmax).
        exists (c :: a), b. simpl forallb. rewrite Ep, Ha.
        repeat split; [exact Hb | exact Hmax].
      * exists [], (c :: s). repeat split; [exact Hm|].
        intros x y Hxy Hx Hpx. destruct x as [|x0 x]; [congruence|].
        simpl in Hxy. injection Hxy as <- ->.
        simpl forallb in Hpx. apply andb_true_iff in Hpx.
        destruct Hpx as [_ Hpx].
        change ([] ++ c :: x) with (c :: x).
        change (pushall (c :: x) cur) with (pushall x (Re.push c cur)).
        destruct (Re.match_here r y (pushall x (Re.push c cur)) caps)
          as [g'|] eqn:Ey; [|reflexivity].
        exfalso.
        apply (star_finds p r y caps x (Re.push c cur) Hpx); congruence.
    + exists [], (c :: s). repeat split; [exact Hm|].
      intros x y Hxy Hx Hpx. destruct x as [|x0 x]; [congruence|].
      simpl in Hxy. injection Hxy as <- ->.
      simpl in Hpx. rewrite Ep in Hpx. discriminate.
Qed.

(** For a name free of special characters, the pip3 version reaches to
    the last closing parenthesis of its line: behind the parenthesis that
    ends it, every further closing parenthesis comes after a line feed. *)
Theorem pip3_version_is_greedy (out pkg v : str) :
  plain_name pkg ->
  extracted pip3 out pkg v ->
  exists pre b,
    out = pre ++ pkg ++ lit " (" ++ v ++ lit ")" ++ b
    /\ forall x y, b = x ++ Re.ch ")" :: y -> forallb Re.dot x = false.
Proof.
  intros _ (its & rest & Hp & Hs). simpl in Hp.
  apply pip3_version_items in Hp. subst its.
  apply ReSteps.search_inv in Hs. destruct Hs as (pre & suf & -> & Hm).
  apply ReSteps.lits_inv in Hm. destruct Hm as (s0 & -> & Hm).
  rewrite ReSteps.pushall_none in Hm.
  destruct s0 as [|x s1]; [discriminate|].
  rewrite ReSteps.step_lit in Hm.
  destruct (x =? Re.ch " ") eqn:Ex; [|discriminate].
  apply N.eqb_eq in Ex. subst x.
  destruct s1 as [|x s2]; [discriminate|].
  rewrite ReSteps.step_lit in Hm.
  destruct (x =? Re.ch "(") eqn:Ex; [|discriminate].
  apply N.eqb_eq in Ex. subst x.
  rewrite ReSteps.step_open in Hm.
  apply star_inv_longest in Hm.
  destruct Hm as (ds & b & -> & Hds & Hm & Hmax).
  rewrite ReSteps.pushall_some in Hm.
  rewrite ReSteps.step_close in Hm.
  destruct b as [|y b']; [discriminate|].
  rewrite ReSteps.step_lit in Hm.
  destruct (y =? Re.ch ")") eqn:Ey; [|discriminate].
  apply N.eqb_eq in Ey. subst y.
  simpl in Hm. injection Hm as Hv Hr.
  rewrite app_nil_r, rev_involutive in Hv. subst ds.
  exists pre, b'. split.
  - simpl. repeat (rewrite <- !app_assoc; simpl). reflexivity.
  - intros x y Hb. destruct (forallb Re.dot x) eqn:Hx; [|reflexivity].
    exfalso.
    assert (Hn := Hmax (Re.ch ")" :: x) (Re.ch ")" :: y)).
    rewrite Hb in Hn. specialize (Hn eq_refl ltac:(discriminate)).
    simpl forallb in Hn. rewrite Hx in Hn. specialize (Hn eq_refl).
    rewrite ReSteps.pushall_some, ReSteps.step_close, ReSteps.step_lit,
      N.eqb_refl in Hn.
    discriminate.
Qed.

Lemma pip3_version_is_greedy_witness :
  exists pre b,
    lit "six (1.15.0) (old)" = pre ++ Sample.six ++ lit " ("
                                ++ lit "1.15.0) (old" ++ lit ")" ++ b
    /\ forall x y, b = x ++ Re.ch ")" :: y -> forallb Re.dot x = false.
Proof.
  apply (pip3_version_is_greedy (lit "six (1.15.0) (old)") Sample.six
           (lit "1.15.0) (old")).
  - discriminate.
  - eexists. eexists. split; [reflexivity | vm_compute; reflexivity].
Defined.

Lemma lits_intro name tl :
  forall s cur caps,
    Re.match_here (List.map Re.Lit name ++ tl) (name ++ s) cur caps
    = Re.match_here tl s (pushall name cur) caps.
Proof.
  induction name as [|c name IH]; intros s cur caps; [reflexivity|].
  change (List.map Re.Lit (c :: name) ++ tl)
    with (Re.Lit c :: (List.map Re.Lit name ++ tl)).
  change ((c :: name) ++ s) with (c :: name ++ s).
  rewrite ReSteps.step_lit, N.eqb_refl. apply IH.
Qed.

(** The search passes over the positions at which the pattern fails. *)
Lemma search_skip its suf :
  forall pre,
    (forall x y, pre = x ++ y -> y <> [] ->
                 Re.match_here its (y ++ suf) None [] = None) ->
    Re.search its (pre ++ suf) = Re.search its suf.
Proof.
  induction pre as [|c pre IH]; intros Hn; [reflexivity|].
  simpl. pose proof (Hn [] (c :: pre) eq_refl ltac:(discriminate)) as H0.
  simpl in H0. rewrite H0. apply IH.
  intros x y -> Hy. apply (Hn (c :: x) y eq_refl Hy).
Qed.

(** In a listing where the entry of the package starts a line and the
    name with its hyphen does not occur before it, the rpm pattern
    extracts the version of that entry: a character that is no hyphen and
    then digits and dots, up to the next hyphen. *)
Theorem rpm_listed_version_extracted (pre pkg v rest : str) :
  plain_name pkg ->
  forallb Re.dot pkg = true ->
  (pre = [] \/ exists p0, pre = p0 ++ lit Sample.nl) ->
  ~ occurs_in (pkg ++ lit "-") pre ->
  (exists c d ds,
      v = c :: d :: ds /\ c <> Re.ch "-" /\ Re.digit_or_dot d = true
      /\ forallb Re.digit_or_dot ds = true) ->
  extracted rpm (pre ++ pkg ++ lit "-" ++ v ++ lit "-" ++ rest) pkg v.
Proof.
  intros Hplain Hline Hpre Hocc (c & d & ds & -> & Hc & Hd & Hds).
  unfold plain_name, Re.literal in Hplain.
  assert (Hits : Pattern.rpm_version pkg
                 = Some (List.map Re.Lit pkg
                           ++ [Re.Lit (Re.ch "-"); Re.GOpen;
                               Re.Class Re.not_hyphen;
                               Re.Class Re.digit_or_dot;
                               Re.Star Re.digit_or_dot;
                               Re.GClose; Re.Lit (Re.ch "-")])).
  { unfold Pattern.rpm_version, Re.literal.
    destruct (existsb Re.special pkg); [congruence | reflexivity]. }
  eexists. exists []. split; [exact Hits|].
  rewrite search_skip.
  - apply ReSteps.search_head. rewrite lits_intro, ReSteps.pushall_none.
    change (lit "-" ++ (c :: d :: ds) ++ lit "-" ++ rest)
      with (Re.ch "-" :: c :: d :: ds ++ Re.ch "-" :: rest).
    rewrite ReSteps.step_lit, N.eqb_refl, ReSteps.step_open.
    rewrite ReSteps.step_class.
    replace (Re.not_hyphen c) with true
      by (symmetry; apply negb_true_iff, N.eqb_neq; exact Hc).
    rewrite ReSteps.step_class, Hd.
    apply ReSteps.star_reach; [exact Hds|].
    rewrite ReSteps.step_star_cons.
    replace (Re.digit_or_dot (Re.ch "-")) with false by reflexivity.
    simpl Re.push. rewrite ReSteps.pushall_some.
    rewrite ReSteps.step_close, ReSteps.step_lit, N.eqb_refl. simpl.
    rewrite rev_app_distr, rev_involutive. reflexivity.
  - intros x y Hxy Hy.
    destruct (Re.match_here _ (y ++ _) None []) as [g|] eqn:Em;
      [|reflexivity].
    exfalso.
    apply ReSteps.lits_inv in Em. destruct Em as (s' & Hs' & Em).
    rewrite ReSteps.pushall_none in Em.
    destruct s' as [|z s'']; [discriminate|].
    rewrite ReSteps.step_lit in Em.
    destruct (z =? Re.ch "-") eqn:Ez; [|discriminate].
    apply N.eqb_eq in Ez. subst z.
    assert (Hs2 : y ++ (pkg ++ lit "-" ++ (c :: d :: ds) ++ lit "-" ++ rest)
                  = (pkg ++ lit "-") ++ s'').
    { rewrite Hs'. rewrite <- app_assoc. reflexivity. }
    apply app_eq_app in Hs2. destruct Hs2 as (l & [[Hy1 _] | [Hn _]]).
    + apply Hocc. exists x, l. rewrite Hxy, Hy1, <- app_assoc. reflexivity.
    + destruct Hpre as [-> | (p0 & ->)].
      * destruct x; [simpl in Hxy; congruence | discriminate].
      * destruct (exists_last Hy) as (y' & a & ->).
        rewrite app_assoc in Hxy. apply app_inj_tail in Hxy.
        destruct Hxy as [_ <-].
        assert (Hfree : free_of 10 (pkg ++ lit "-") = true).
        { unfold free_of. rewrite forallb_app. apply andb_true_iff.
          split; [exact Hline | reflexivity]. }
        rewrite <- app_assoc in Hn. simpl in Hn.
        exact (free_of_split _ _ _ _ Hfree Hn).
Qed.

Lemma rpm_listed_version_extracted_witness :
  extracted rpm
    (lit (String.append "bash-4.2.46-34.el7.x86_64" Sample.nl)
       ++ Sample.curl ++ lit "-" ++ lit "7.29.0" ++ lit "-"
       ++ lit "59.el7.x86_64")
    Sample.curl (lit "7.29.0").
Proof.
  apply (rpm_listed_version_extracted
           (lit (String.append "bash-4.2.46-34.el7.x86_64" Sample.nl))
           Sample.curl (lit "7.29.0") (lit "59.el7.x86_64")).
  - discriminate.
  - reflexivity.
  - right. exists (lit "bash-4.2.46-34.el7.x86_64"). reflexivity.
  - intros Hocc. apply find_hit in Hocc. vm_compute in Hocc. discriminate.
  - exists 55, 46, (lit "29.0"). repeat split. discriminate.
Defined.
